(** * Lane-Emden solver: a shallow embedding of [Lane-Emden.ipynb]

    The notebook integrates the Lane-Emden equation of index [n] with a
    classical Runge-Kutta stepper whose step size follows the local scale
    length.  The four functions of the notebook, [LE], [center], [rk4] and
    [integrate], are embedded below, and with them what the loop of the
    last cell computes for its labels and its table.

    Numbers are IEEE 754 binary64 values, the [float64] of numpy and the
    [float] of Python: Rocq's primitive floats compute the same sums,
    products, quotients, absolute values and comparisons bit for bit, with
    the same infinities and signed zeros.  Rocq has one NaN: the sign and
    the payload of a NaN are not modelled, and two values are equal below
    when they are the same number or both NaN.  numpy's default error state
    warns on a
    division by zero or an invalid operation and returns the IEEE result; it
    does not raise.  State vectors are numpy arrays of two float64, as
    [center] and [rk4] build them.  The power operator [**] is numpy's, not
    the notebook's: it is a parameter [pow] of every definition.  The
    arguments [n], [h], [prec] and [dx_store] are taken as floats (a Python
    [int] passed for [n] stands for the float64 of the same value), [nstps]
    as an integer. *)

From Stdlib Require Import ZArith Lia.
From Stdlib Require Import Floats.PrimFloat Floats.SpecFloat Floats.FloatOps Floats.FloatAxioms.
From stdpp Require Import base list.

Set Default Proof Using "Type".
#[local] Set Warnings "-inexact-float".

(** ** Python exceptions and the error monad *)

Inductive exn : Type :=
  | IndexError   (* index out of the bounds of an array *)
  | ValueError.  (* np.zeros with a negative dimension *)

Inductive result (A : Type) : Type :=
  | Ok (a : A)
  | Raise (e : exn).
Arguments Ok {A} a.
Arguments Raise {A} e.

#[global] Instance result_ret : MRet result := fun A a => Ok a.
#[global] Instance result_bind : MBind result := fun A B k m =>
  match m with
  | Ok a => k a
  | Raise e => Raise e
  end.

(** ** numpy arrays *)

(** A row of the [(nstps,2)] arrays, and the value of [np.array([a, b])]. *)
Definition vec : Type := (float * float)%type.

Module Vec.
Definition add (u v : vec) : vec := ((u.1 + v.1)%float, (u.2 + v.2)%float).
(** [s * v] for a scalar [s]. *)
Definition scale (s : float) (v : vec) : vec := ((s * v.1)%float, (s * v.2)%float).
(** [v / s] for a scalar [s]. *)
Definition div_scalar (v : vec) (s : float) : vec := ((v.1 / s)%float, (v.2 / s)%float).
(** [u / v], componentwise. *)
Definition div (u v : vec) : vec := ((u.1 / v.1)%float, (u.2 / v.2)%float).
(** [abs(v)], componentwise. *)
Definition abs (v : vec) : vec := (PrimFloat.abs v.1, PrimFloat.abs v.2).
End Vec.

(** Python's builtin [min] over a two-element array: the first element is
    kept unless the second compares strictly less (a NaN never does). *)
Definition py_min (v : vec) : float := if (v.2 <? v.1)%float then v.2 else v.1.

(** [np.zeros(k)] and [np.zeros((k,2))]. *)
Definition zeros (k : Z) : result (list float) :=
  if (k <? 0)%Z then Raise ValueError else Ok (replicate (Z.to_nat k) 0%float).
Definition zeros2 (k : Z) : result (list vec) :=
  if (k <? 0)%Z then Raise ValueError else Ok (replicate (Z.to_nat k) (0%float, 0%float)).

(** [a[i]] and [a[i] = v] for an index [i >= 0]. *)
Definition getitem {A : Type} (a : list A) (i : nat) : result A :=
  match a !! i with
  | Some v => Ok v
  | None => Raise IndexError
  end.
Definition setitem {A : Type} (a : list A) (i : nat) (v : A) : result (list A) :=
  if decide (i < length a) then Ok (<[i := v]> a) else Raise IndexError.

(** [xrange(1, nstps)]. *)
Definition xrange1 (nstps : Z) : list nat := seq 1 (Z.to_nat nstps - 1).

(** ** The solver *)

(** The frame of [integrate]: its four arrays and the write pointer. *)
Record frame : Type := Frame {
  y : list vec;
  x : list float;
  x_store : list float;
  y_store : list vec;
  str_ptr : nat
}.

(** How the [for] statement of [integrate] was left: by its [break] in
    iteration [i], or because [xrange] was used up. *)
Inductive exit : Type :=
  | Break (i : nat)
  | Exhausted.

Section LaneEmden.

(** numpy's [**] on float64. *)
Variable pow : float -> float -> float.

Open Scope float_scope.

(** def LE(x,y,n): return np.array([y[1], -y[0]**n - 2*y[1]/x]) *)
Definition LE (x : float) (y : vec) (n : float) : vec :=
  (y.2, - (pow y.1 n) - 2 * y.2 / x).

(** def center(h,n) *)
Definition center (h n : float) : vec :=
  let h2 := pow h 2 in
  (1 + h2 * ((-1) / 6 + h2 * (n / 120 - n * (8 * n - 5) * h2 / 15120)),
   h * ((-1) / 3 + h2 * (n / 30 - n * (8 * n - 5) * h2 / 2520))).

(** def rk4(t,h,y,f,*args) *)
Definition rk4 {A : Type} (t h : float) (y : vec) (f : float -> vec -> A -> vec)
    (args : A) : vec :=
  let h12 := h / 2 in
  let t12 := t + h12 in
  let k1 := f t y args in
  let k2 := f t12 (Vec.add y (Vec.scale h12 k1)) args in
  let k3 := f t12 (Vec.add y (Vec.scale h12 k2)) args in
  let k4 := f (t + h) (Vec.add y (Vec.scale h k3)) args in
  Vec.add y
    (Vec.div_scalar
       (Vec.scale h
          (Vec.add (Vec.add (Vec.add k1 (Vec.scale 2 k2)) (Vec.scale 2 k3)) k4))
       6).

(** [H_P = abs(y[i-1,:]/LE(x[i-1],y[i-1,:],n))] *)
Definition scale_length (xp : float) (yp : vec) (n : float) : vec :=
  Vec.abs (Vec.div yp (LE xp yp n)).

(** [h = 0.05*min(H_P)] *)
Definition step_size (xp : float) (yp : vec) (n : float) : float :=
  0.05 * py_min (scale_length xp yp n).

(** The body of the [for] statement at index [i], which [xrange(1,nstps)]
    keeps at 1 or more; the flag says whether [break] was reached. *)
Definition body (n prec dx_store : float) (i : nat) (st : frame)
    : result (frame * bool) :=
  yp ← getitem (y st) (i - 1);
  xp ← getitem (x st) (i - 1);
  let H_P := Vec.abs (Vec.div yp (LE xp yp n)) in
  let h := 0.05 * py_min H_P in
  y' ← setitem (y st) i (rk4 xp h yp LE n);
  x' ← setitem (x st) i (xp + h);
  xi ← getitem x' i;
  yi ← getitem y' i;
  if h <? prec then
    let ptr := S (str_ptr st) in
    xs ← setitem (x_store st) ptr (xi + H_P.1);
    ys ← setitem (y_store st) ptr yi;
    Ok (Frame y' x' xs ys ptr, true)
  else
    last ← getitem (x_store st) (str_ptr st);
    if last + dx_store <? xi then
      let ptr := S (str_ptr st) in
      xs ← setitem (x_store st) ptr xi;
      ys ← setitem (y_store st) ptr yi;
      Ok (Frame y' x' xs ys ptr, false)
    else
      Ok (Frame y' x' (x_store st) (y_store st) (str_ptr st), false).

(** for i in xrange(1,nstps): ... *)
Fixpoint loop (n prec dx_store : float) (idx : list nat) (st : frame)
    : result (frame * exit) :=
  match idx with
  | [] => Ok (st, Exhausted)
  | i :: rest =>
      '(st', stop) ← body n prec dx_store i st;
      if stop : bool then Ok (st', Break i) else loop n prec dx_store rest st'
  end.

(** The statements of [integrate] before its loop: the four arrays, seeded
    with the starting point, and the write pointer. *)
Definition init (n h : float) (nstps : Z) : result frame :=
  y0 ← zeros2 nstps;
  x0 ← zeros nstps;
  xs0 ← zeros nstps;
  ys0 ← zeros2 nstps;
  x1 ← setitem x0 0 h;
  xh ← getitem x1 0;
  y1 ← setitem y0 0 (center xh n);
  xs1 ← setitem xs0 0 xh;
  yh ← getitem y1 0;
  ys1 ← setitem ys0 0 yh;
  Ok (Frame y1 x1 xs1 ys1 0).

(** [integrate] up to its [return] statement. *)
Definition integrate_run (n h : float) (nstps : Z) (prec dx_store : float)
    : result (frame * exit) :=
  st0 ← init n h nstps;
  loop n prec dx_store (xrange1 nstps) st0.

(** The frame on entry to iteration [i], when no earlier iteration left
    the loop. *)
Definition entry (n h : float) (nstps : Z) (prec dx_store : float) (i : nat)
    : result (frame * exit) :=
  st0 ← init n h nstps;
  loop n prec dx_store (seq 1 (i - 1)) st0.

(** [return x_store[0:str_ptr+1],y_store[0:str_ptr+1,:]] *)
Definition stored (st : frame) : list float * list vec :=
  (take (S (str_ptr st)) (x_store st), take (S (str_ptr st)) (y_store st)).

(** def integrate(n,h=0.001,nstps=1000,prec=1.0e-6,dx_store=0.1) *)
Definition integrate (n h : float) (nstps : Z) (prec dx_store : float)
    : result (list float * list vec) :=
  '(st, _) ← integrate_run n h nstps prec dx_store;
  Ok (stored st).

End LaneEmden.

(** [rk4] as the specification writes its last line,
    y + h/6 * (k1 + 2*k2 + 2*k3 + k4): the stages are those of [rk4], the
    increment is the sum of the stages times the quotient h/6. *)
Definition rk4_spec {A : Type} (t h : float) (y : vec) (f : float -> vec -> A -> vec)
    (args : A) : vec :=
  let k1 := f t y args in
  let k2 := f (t + h / 2)%float (Vec.add y (Vec.scale (h / 2)%float k1)) args in
  let k3 := f (t + h / 2)%float (Vec.add y (Vec.scale (h / 2)%float k2)) args in
  let k4 := f (t + h)%float (Vec.add y (Vec.scale h k3)) args in
  Vec.add y
    (Vec.scale (h / 6)%float
       (Vec.add (Vec.add (Vec.add k1 (Vec.scale 2 k2)) (Vec.scale 2 k3)) k4)).

(** An instance of [pow] to evaluate the solver on concrete inputs of index
    0 and 1.  It is numpy's [**] where C99 fixes the result: [pow(x, 0) = 1]
    and [pow(x, 1) = x] for every [x].  At the exponent 2 it is the
    rounded product [b * b], which the power of the C library returns for
    most bases, the offsets used below among them, but not for all.  Every
    other exponent yields NaN: that is the IEEE value for a negative finite
    base and a finite exponent that is not an integer, such as
    [(-1)**1.5]; elsewhere the instance is not a model of numpy's power
    and no statement below evaluates it there. *)
Definition pow_ieee (b n : float) : float :=
  if (n =? 0)%float then 1%float
  else if (n =? 1)%float then b
  else if (n =? 2)%float then (b * b)%float
  else nan.

(** The default arguments of [integrate]. *)
Definition integrate_default (pow : float -> float -> float) (n : float)
    : result (list float * list vec) :=
  integrate pow n 0.001 1000 1.0e-6 0.1.

(** ** What the loop maintains *)

Section Invariants.

Variable pow : float -> float -> float.
Variables (n h0 prec dx_store : float) (N : nat).

(** The dense point at [j] is one step away from the point at [j-1]. *)
Definition advanced (st : frame) (j : nat) : Prop :=
  exists xp yp,
    x st !! (j - 1) = Some xp /\ y st !! (j - 1) = Some yp /\
    x st !! j = Some (xp + step_size pow xp yp n)%float /\
    y st !! j = Some (rk4 xp (step_size pow xp yp n) yp (LE pow) n).

(** The step size chosen in iteration [j] is not below [prec]. *)
Definition slow (st : frame) (j : nat) : Prop :=
  exists xp yp,
    x st !! (j - 1) = Some xp /\ y st !! (j - 1) = Some yp /\
    (step_size pow xp yp n <? prec)%float = false.

(** The first [m] gaps of [xs] passed the storage check. *)
Definition spaced (xs : list float) (m : nat) : Prop :=
  forall k a b, k < m -> xs !! k = Some a -> xs !! S k = Some b ->
    (a + dx_store <? b)%float = true.

(** The arrays keep their length and their first row. *)
Record shape (st : frame) : Prop := Shape {
  shape_y : length (y st) = N;
  shape_x : length (x st) = N;
  shape_xs : length (x_store st) = N;
  shape_ys : length (y_store st) = N;
  shape_x0 : x st !! 0 = Some h0;
  shape_y0 : y st !! 0 = Some (center pow h0 n);
  shape_xs0 : x_store st !! 0 = Some h0;
  shape_ys0 : y_store st !! 0 = Some (center pow h0 n)
}.

(** The frame on entry to iteration [i]. *)
Record Inv (i : nat) (st : frame) : Prop := MkInv {
  inv_shape : shape st;
  inv_ptr : str_ptr st < i;
  inv_adv : forall j, 1 <= j < i -> advanced st j;
  inv_slow : forall j, 1 <= j < i -> slow st j;
  inv_spaced : spaced (x_store st) (str_ptr st);
  inv_fresh : forall j, i <= j < N ->
    x st !! j = Some 0%float /\ y st !! j = Some (0%float, 0%float)
}.

(** The frame [st] left by the [break] of iteration [i], entered with the
    frame [st_b]. *)
Record Done (i : nat) (st_b st : frame) : Prop := MkDone {
  done_shape : shape st;
  done_ptr : str_ptr st = S (str_ptr st_b) /\ str_ptr st <= i;
  done_adv : forall j, 1 <= j <= i -> advanced st j;
  done_slow : forall j, 1 <= j < i -> slow st j;
  done_fast : exists xp yp,
    x st_b !! (i - 1) = Some xp /\ y st_b !! (i - 1) = Some yp /\
    (step_size pow xp yp n <? prec)%float = true /\
    x_store st = <[S (str_ptr st_b) :=
                    (xp + step_size pow xp yp n + (scale_length pow xp yp n).1)%float]>
                   (x_store st_b) /\
    y_store st = <[S (str_ptr st_b) := rk4 xp (step_size pow xp yp n) yp (LE pow) n]>
                   (y_store st_b);
  done_spaced : spaced (x_store st) (str_ptr st_b);
  done_fresh : forall j, i < j < N ->
    x st !! j = Some 0%float /\ y st !! j = Some (0%float, 0%float)
}.

End Invariants.

(** The number of iterations a run went through. *)
Definition iterations (e : exit) (nstps : Z) : nat :=
  match e with
  | Break i => i
  | Exhausted => Z.to_nat nstps - 1
  end.

(** ** Further notions *)

(** The sign of a value: NaN has none. *)
Definition sign_of (s : spec_float) : option bool :=
  match s with
  | S754_nan => None
  | S754_zero b | S754_infinity b | S754_finite b _ _ => Some b
  end.

(** Neither negative nor a negative zero. *)
Definition unsigned (s : spec_float) : Prop := sign_of s <> Some true.

(** The list [js] gives, for each of the first samples of the store, the
    row of the dense arrays it was copied from, rows below [i], in
    increasing order. *)
Definition copied (i : nat) (js : list nat) (st : frame) : Prop :=
  (forall k j, js !! k = Some j ->
     j < i /\
     exists xj yj,
       x st !! j = Some xj /\ y st !! j = Some yj /\
       x_store st !! k = Some xj /\ y_store st !! k = Some yj) /\
  (forall k1 k2 j1 j2, k1 < k2 -> js !! k1 = Some j1 -> js !! k2 = Some j2 -> j1 < j2).

(** Every sample in the store is a copy of a dense row below [i]. *)
Definition sampled (i : nat) (st : frame) : Prop :=
  exists js, length js = S (str_ptr st) /\ copied i js st.

(** The frame on entry follows an all-NaN dense point and has the given
    store. *)
Definition poisoned (xs : list float) (ys : list vec) (p : nat) (i : nat)
    (st : frame) : Prop :=
  x st !! (i - 1) = Some nan /\ y st !! (i - 1) = Some (nan, nan) /\
  x_store st = xs /\ y_store st = ys /\ str_ptr st = p.

(** ** The last cell: the labels and the table *)

(** [np.where(m)[0]] for a mask [m]: the indices at which it is true, in
    increasing order. *)
Fixpoint where_from (i : nat) (m : list bool) : list nat :=
  match m with
  | [] => []
  | b :: t => if b then i :: where_from (S i) t else where_from (S i) t
  end.
Definition np_where (m : list bool) : list nat := where_from 0 m.

(** Python's builtin [max] over a sequence of indices: the item kept is
    replaced by a later one that compares greater; an empty sequence
    raises a ValueError. *)
Definition py_max (l : list nat) : result nat :=
  match l with
  | [] => Raise ValueError
  | a :: t => Ok (foldl (fun m v => if m <? v then v else m) a t)
  end.

(** [a[-1]] *)
Definition getitem_last {A : Type} (a : list A) : result A :=
  match last a with
  | Some v => Ok v
  | None => Raise IndexError
  end.

(** xright = 5.5 *)
Definition xright : float := 5.5%float.

(** Where the curve is labelled:
    [xinfig = np.where(x < xright)], [xloc = x[max(xinfig[0])]] and
    [yloc = y[max(xinfig[0]),0]]. *)
Definition label (x : list float) (y : list vec) : result (float * float) :=
  let xinfig := np_where ((fun v => (v <? xright)%float) <$> x) in
  m ← py_max xinfig;
  xloc ← getitem x m;
  m' ← py_max xinfig;
  yrow ← getitem y m';
  Ok (xloc, yrow.1).

(** What one pass of the loop of the last cell hands to [plt.annotate] and
    to [print]: the index, the place of the label, and the root r1 and
    slope dy of the table. *)
Record curve : Type := Curve {
  index : float;
  xloc : float;
  yloc : float;
  r1 : float;
  dy : float
}.

(** The body of [for n in (0,1,1.5,2,3,4)], without its calls to pyplot
    and without the formatting of the printed line. *)
Definition pass (pow : float -> float -> float) (n : float) : result curve :=
  '(x, y) ← integrate_default pow n;
  '(xl, yl) ← label x y;
  xr ← getitem_last x;
  yr ← getitem_last y;
  Ok (Curve n xl yl xr yr.2).

(** for n in (0,1,1.5,2,3,4): ... *)
Definition table (pow : float -> float -> float) : result (list curve) :=
  mapM (pass pow) [0; 1; 1.5; 2; 3; 4]%float.

(** * Properties *)

(** ** IEEE facts used below *)

Lemma Prim2SF_inj (a b : float) : Prim2SF a = Prim2SF b -> a = b.
Proof.
  intros E. rewrite <- (SF2Prim_Prim2SF a), <- (SF2Prim_Prim2SF b). now rewrite E.
Qed.



(** ** The derivative function [LE] *)

(** C6: for every xi > 0, state (y0, y1) and index n, [LE] returns exactly
    the vector (y1, -y0**n - 2*y1/xi); it is a function of its arguments. *)
Theorem LE_value (pow : float -> float -> float) (xi y0 y1 n : float) :
  (0 <? xi)%float = true ->
  LE pow xi (y0, y1) n = (y1, (- (pow y0 n) - 2 * y1 / xi)%float).
Proof. intros _. reflexivity. Qed.

Lemma LE_value_witness :
  LE pow_ieee 2 (1, -0.5)%float 1 = (-0.5, (- (pow_ieee 1 1) - 2 * -0.5 / 2))%float.
Proof. apply (LE_value pow_ieee 2 1 (-0.5) 1). reflexivity. Defined.




(** ** The near-origin starter [center] *)

(** C4: for every offset h and index n, [center] returns the pair of the
    two polynomial values, with h**2 for the square of h; it is a total
    function, so it has no error case. *)
Theorem center_series (pow : float -> float -> float) (h n : float) :
  let h2 := pow h 2%float in
  center pow h n =
    ((1 + h2 * (-1 / 6 + h2 * (n / 120 - n * (8 * n - 5) * h2 / 15120)))%float,
     (h * (-1 / 3 + h2 * (n / 30 - n * (8 * n - 5) * h2 / 2520)))%float).
Proof. reflexivity. Qed.

(** ** The stepper [rk4] *)

(** C5, as the code has it: for every t, h, state y, derivative function f
    and extra parameters, [rk4] returns y + h*(k1 + 2*k2 + 2*k3 + k4)/6,
    component by component, for the four stages k1..k4 of the classical
    scheme: the sum of the stages is multiplied by h and the product is
    divided by 6.  f is all it calls. *)
Theorem rk4_stages {A : Type} (t h : float) (y0 : vec) (f : float -> vec -> A -> vec)
    (args : A) :
  let k1 := f t y0 args in
  let k2 := f (t + h / 2)%float ((y0.1 + h / 2 * k1.1)%float, (y0.2 + h / 2 * k1.2)%float) args in
  let k3 := f (t + h / 2)%float ((y0.1 + h / 2 * k2.1)%float, (y0.2 + h / 2 * k2.2)%float) args in
  let k4 := f (t + h)%float ((y0.1 + h * k3.1)%float, (y0.2 + h * k3.2)%float) args in
  rk4 t h y0 f args =
    ((y0.1 + h * (k1.1 + 2 * k2.1 + 2 * k3.1 + k4.1) / 6)%float,
     (y0.2 + h * (k1.2 + 2 * k2.2 + 2 * k3.2 + k4.2) / 6)%float).
Proof. reflexivity. Qed.

(** C5 fails as stated: y + h/6*(k1 + 2*k2 + 2*k3 + k4) is another binary64
    value than the one [rk4] returns.  One step of size 2.5 of the index 1
    from xi = 1 and the state (1, -0.5) differs in the last digit of the
    second component; and where h times the sum of the stages overflows,
    [rk4] returns an infinite component and the other formula a finite
    one. *)
Lemma rk4_order_counterexample :
  rk4 1 2.5 (1, -0.5)%float (LE pow_ieee) 1%float =
    (-0.18569958847736623, -0.31117495223398006)%float /\
  rk4_spec 1 2.5 (1, -0.5)%float (LE pow_ieee) 1%float =
    (-0.18569958847736623, -0.31117495223398001)%float /\
  (-0.31117495223398006 =? -0.31117495223398001)%float = false /\
  rk4 0 6 (0, 0)%float (fun _ _ _ => (1.0e307, 0)%float) tt = (infinity, 0%float) /\
  rk4_spec 0 6 (0, 0)%float (fun _ _ _ => (1.0e307, 0)%float) tt =
    (5.9999999999999997e+307, 0)%float.
Proof. repeat split; vm_compute; reflexivity. Qed.

(** ** The driver [integrate] *)

(** The default call finds the first root of index 0 within 1e-3 of the
    square root of 6, and that of index 1 within 1e-3 of pi. *)
Example root_index_0 :
  exists xs ys,
    integrate_default pow_ieee 0 = Ok (xs, ys) /\
    exists r, last xs = Some r /\ (abs (r - sqrt 6) <? 1.0e-3)%float = true.
Proof.
  eexists _, _. split; [vm_compute; reflexivity|]. eexists. split; reflexivity.
Qed.

Example root_index_1 :
  exists xs ys,
    integrate_default pow_ieee 1 = Ok (xs, ys) /\
    exists r, last xs = Some r /\
      (abs (r - 3.141592653589793) <? 1.0e-3)%float = true.
Proof.
  eexists _, _. split; [vm_compute; reflexivity|]. eexists. split; reflexivity.
Qed.

Lemma bind_Ok {A B : Type} (a : A) (k : A -> result B) : (Ok a ≫= k) = k a.
Proof. reflexivity. Qed.

Lemma getitem_Some {A : Type} (a : list A) (i : nat) (v : A) :
  a !! i = Some v -> getitem a i = Ok v.
Proof. unfold getitem. now intros ->. Qed.

Lemma setitem_lt {A : Type} (a : list A) (i : nat) (v : A) :
  i < length a -> setitem a i v = Ok (<[i := v]> a).
Proof. unfold setitem. intros H. now rewrite decide_True. Qed.

Section Driver.

Variable pow : float -> float -> float.
Variables (n h0 prec dx_store : float) (N : nat).

(** The three ways through the body of the loop. *)
Lemma body_cases (i : nat) (st : frame) (xp : float) (yp : vec) (last : float) :
  x st !! (i - 1) = Some xp -> y st !! (i - 1) = Some yp ->
  i < length (x st) -> i < length (y st) ->
  x_store st !! str_ptr st = Some last ->
  S (str_ptr st) < length (x_store st) -> S (str_ptr st) < length (y_store st) ->
  let h := step_size pow xp yp n in
  let xi := (xp + h)%float in
  let yi := rk4 xp h yp (LE pow) n in
  let y' := <[i := yi]> (y st) in
  let x' := <[i := xi]> (x st) in
  let ptr := S (str_ptr st) in
  body pow n prec dx_store i st =
    if (h <? prec)%float then
      Ok (Frame y' x' (<[ptr := (xi + (scale_length pow xp yp n).1)%float]> (x_store st))
            (<[ptr := yi]> (y_store st)) ptr, true)
    else if (last + dx_store <? xi)%float then
      Ok (Frame y' x' (<[ptr := xi]> (x_store st)) (<[ptr := yi]> (y_store st)) ptr, false)
    else
      Ok (Frame y' x' (x_store st) (y_store st) (str_ptr st), false).
Proof.
  intros Hx Hy Lx Ly Hl Lxs Lys h xi yi y' x' ptr.
  unfold body.
  rewrite (getitem_Some _ _ _ Hy), bind_Ok, (getitem_Some _ _ _ Hx), bind_Ok.
  fold (scale_length pow xp yp n). fold (step_size pow xp yp n). fold h.
  rewrite (setitem_lt _ _ _ Ly), bind_Ok, (setitem_lt _ _ _ Lx), bind_Ok.
  rewrite (getitem_Some _ i xi), bind_Ok by now apply list_lookup_insert_eq.
  rewrite (getitem_Some _ i yi), bind_Ok by now apply list_lookup_insert_eq.
  destruct (h <? prec)%float.
  - now rewrite (setitem_lt _ _ _ Lxs), bind_Ok, (setitem_lt _ _ _ Lys), bind_Ok.
  - rewrite (getitem_Some _ _ _ Hl), bind_Ok.
    destruct (last + dx_store <? xi)%float; [|reflexivity].
    now rewrite (setitem_lt _ _ _ Lxs), bind_Ok, (setitem_lt _ _ _ Lys), bind_Ok.
Qed.

(** Lookups around a write at another index. *)
Ltac look :=
  cbn [y x x_store y_store str_ptr];
  repeat first
    [ rewrite list_lookup_insert_ne by lia
    | rewrite list_lookup_insert_eq by lia
    | rewrite length_insert ].

Lemma advanced_keep (st : frame) (i j : nat) (xi : float) (yi : vec)
    (xs : list float) (ys : list vec) (p : nat) :
  1 <= j < i -> advanced pow n st j ->
  advanced pow n (Frame (<[i := yi]> (y st)) (<[i := xi]> (x st)) xs ys p) j.
Proof.
  intros Hj (xp & yp & H1 & H2 & H3 & H4). exists xp, yp. now look.
Qed.

Lemma slow_keep (st : frame) (i j : nat) (xi : float) (yi : vec)
    (xs : list float) (ys : list vec) (p : nat) :
  1 <= j <= i -> slow pow n prec st j ->
  slow pow n prec (Frame (<[i := yi]> (y st)) (<[i := xi]> (x st)) xs ys p) j.
Proof.
  intros Hj (xp & yp & H1 & H2 & H3). exists xp, yp. now look.
Qed.

Lemma spaced_keep (xs : list float) (p : nat) (v : float) :
  spaced dx_store xs p -> spaced dx_store (<[S p := v]> xs) p.
Proof.
  intros H k a b Hk. look. now apply H.
Qed.

Lemma spaced_grow (xs : list float) (p : nat) (last v : float) :
  S p < length xs -> xs !! p = Some last -> (last + dx_store <? v)%float = true ->
  spaced dx_store xs p -> spaced dx_store (<[S p := v]> xs) (S p).
Proof.
  intros Hl Hp Hv H k a b Hk.
  destruct (decide (k = p)) as [->|Hne].
  - look. rewrite Hp. intros [= <-] [= <-]. exact Hv.
  - look. apply H. lia.
Qed.

(** One iteration takes the frame on entry to the frame on entry of the
    next, or to the frame left by [break]. *)
Lemma body_inv (i : nat) (st : frame) :
  Inv pow n h0 prec dx_store N i st -> 1 <= i < N ->
  exists st' b,
    body pow n prec dx_store i st = Ok (st', b) /\
    if b : bool then Done pow n h0 prec dx_store N i st st'
    else Inv pow n h0 prec dx_store N (S i) st'.
Proof.
  intros [[Ly Lx Lxs Lys X0 Y0 XS0 YS0] Hp Ha Hs Hsp Hf] Hi.
  destruct (lookup_lt_is_Some_2 (x st) (i - 1)) as [xp Hx]; [lia|].
  destruct (lookup_lt_is_Some_2 (y st) (i - 1)) as [yp Hy]; [lia|].
  destruct (lookup_lt_is_Some_2 (x_store st) (str_ptr st)) as [last Hl]; [lia|].
  rewrite (body_cases i st xp yp last) by (assumption || lia).
  set (h := step_size pow xp yp n).
  set (xi := (xp + h)%float).
  set (yi := rk4 xp h yp (LE pow) n).
  assert (Hnew : forall xs ys p,
    advanced pow n (Frame (<[i := yi]> (y st)) (<[i := xi]> (x st)) xs ys p) i).
  { intros xs ys p. exists xp, yp. now look. }
  destruct (h <? prec)%float eqn:Hprec.
  - eexists _, true. split; [reflexivity|]. constructor.
    + constructor; look; auto.
    + cbn. lia.
    + intros j Hj. destruct (decide (j = i)) as [->|]; [apply Hnew|].
      apply advanced_keep; [lia|]. apply Ha. lia.
    + intros j Hj. apply slow_keep; [lia|]. now apply Hs.
    + exists xp, yp. now look.
    + cbn. now apply spaced_keep.
    + intros j Hj. look. apply Hf. lia.
  - assert (Hslow : forall xs ys p,
      slow pow n prec (Frame (<[i := yi]> (y st)) (<[i := xi]> (x st)) xs ys p) i).
    { intros xs ys p. exists xp, yp. now look. }
    destruct (last + dx_store <? xi)%float eqn:Hst.
    + eexists _, false. split; [reflexivity|]. constructor.
      * constructor; look; auto.
      * cbn. lia.
      * intros j Hj. destruct (decide (j = i)) as [->|]; [apply Hnew|].
        apply advanced_keep; [lia|]. apply Ha. lia.
      * intros j Hj. destruct (decide (j = i)) as [->|]; [apply Hslow|].
        apply slow_keep; [lia|]. apply Hs. lia.
      * cbn. now apply spaced_grow with last; [lia|..].
      * intros j Hj. look. apply Hf. lia.
    + eexists _, false. split; [reflexivity|]. constructor.
      * constructor; look; auto.
      * cbn. lia.
      * intros j Hj. destruct (decide (j = i)) as [->|]; [apply Hnew|].
        apply advanced_keep; [lia|]. apply Ha. lia.
      * intros j Hj. destruct (decide (j = i)) as [->|]; [apply Hslow|].
        apply slow_keep; [lia|]. apply Hs. lia.
      * exact Hsp.
      * intros j Hj. look. apply Hf. lia.
Qed.

(** The loop over the indices [i], ..., [i+k-1]. *)
Lemma loop_inv (k : nat) : forall (i : nat) (st : frame),
  Inv pow n h0 prec dx_store N i st -> 1 <= i -> i + k <= N ->
  exists st' e,
    loop pow n prec dx_store (seq i k) st = Ok (st', e) /\
    match e with
    | Exhausted => Inv pow n h0 prec dx_store N (i + k) st'
    | Break j =>
        i <= j < i + k /\
        exists st_b,
          loop pow n prec dx_store (seq i (j - i)) st = Ok (st_b, Exhausted) /\
          Inv pow n h0 prec dx_store N j st_b /\
          Done pow n h0 prec dx_store N j st_b st'
    end.
Proof.
  induction k as [|k IH]; intros i st HI Hi Hk.
  - exists st, Exhausted. split; [reflexivity|]. now rewrite Nat.add_0_r.
  - destruct (body_inv i st HI) as (st1 & b & Hb & Hst1); [lia|].
    cbn [seq loop]. rewrite Hb, bind_Ok. destruct b.
    + exists st1, (Break i). split; [reflexivity|]. split; [lia|].
      exists st. rewrite Nat.sub_diag. now split.
    + destruct (IH (S i) st1 Hst1) as (st2 & e & He & Hst2); [lia..|].
      exists st2, e. split; [exact He|]. destruct e as [j|].
      * destruct Hst2 as (Hj & st_b & Hpre & Hinv & Hdone).
        split; [lia|]. exists st_b. split; [|now split].
        replace (j - i) with (S (j - S i)) by lia.
        cbn [seq loop]. now rewrite Hb, bind_Ok.
      * now replace (i + S k) with (S i + k) by lia.
Qed.

End Driver.

Section Run.

Variable pow : float -> float -> float.
Variables (n h prec dx_store : float) (nstps : Z).

Lemma init_negative : (nstps < 0)%Z -> init pow n h nstps = Raise ValueError.
Proof.
  intros H. unfold init, zeros2. now rewrite (proj2 (Z.ltb_lt _ _) H).
Qed.

Lemma init_zero : nstps = 0%Z -> init pow n h nstps = Raise IndexError.
Proof. now intros ->. Qed.

Lemma init_inv :
  (1 <= nstps)%Z ->
  exists st0,
    init pow n h nstps = Ok st0 /\
    Inv pow n h prec dx_store (Z.to_nat nstps) 1 st0.
Proof.
  intros H. unfold init, zeros, zeros2.
  rewrite (proj2 (Z.ltb_ge _ _)) by lia. rewrite !bind_Ok.
  set (N := Z.to_nat nstps). assert (HN : 1 <= N) by lia.
  repeat first
    [ rewrite bind_Ok
    | rewrite setitem_lt by (rewrite length_replicate; lia)
    | rewrite (getitem_Some _ 0 h)
        by (apply list_lookup_insert_eq; rewrite length_replicate; lia)
    | rewrite (getitem_Some _ 0 (center pow h n))
        by (apply list_lookup_insert_eq; rewrite length_replicate; lia) ].
  eexists. split; [reflexivity|]. constructor; cbn [y x x_store y_store str_ptr].
  - constructor; cbn [y x x_store y_store str_ptr];
      rewrite ?length_insert, ?length_replicate; try reflexivity;
      apply list_lookup_insert_eq; rewrite length_replicate; lia.
  - lia.
  - intros j Hj. lia.
  - intros j Hj. lia.
  - intros k a b Hk. lia.
  - intros j Hj. rewrite !list_lookup_insert_ne by lia.
    split; apply lookup_replicate_2; lia.
Qed.

(** A call with [nstps >= 1] goes through the loop and leaves it in one of
    two ways. *)
Lemma run_cases :
  (1 <= nstps)%Z ->
  exists st e,
    integrate_run pow n h nstps prec dx_store = Ok (st, e) /\
    match e with
    | Exhausted => Inv pow n h prec dx_store (Z.to_nat nstps) (Z.to_nat nstps) st
    | Break i =>
        1 <= i < Z.to_nat nstps /\
        exists st_b,
          entry pow n h nstps prec dx_store i = Ok (st_b, Exhausted) /\
          Inv pow n h prec dx_store (Z.to_nat nstps) i st_b /\
          Done pow n h prec dx_store (Z.to_nat nstps) i st_b st
    end.
Proof.
  intros H. destruct (init_inv H) as (st0 & H0 & HI).
  destruct (loop_inv pow n h prec dx_store (Z.to_nat nstps) (Z.to_nat nstps - 1) 1 st0 HI)
    as (st & e & He & Hst); [lia..|].
  exists st, e. unfold integrate_run, entry, xrange1. rewrite H0, !bind_Ok.
  split; [exact He|]. destruct e as [i|].
  - destruct Hst as (Hi & st_b & Hpre & Hinv & Hdone). split; [lia|].
    exists st_b. now split.
  - now replace (1 + (Z.to_nat nstps - 1)) with (Z.to_nat nstps) in Hst by lia.
Qed.

Lemma run_Ok_nstps (st : frame) (e : exit) :
  integrate_run pow n h nstps prec dx_store = Ok (st, e) -> (1 <= nstps)%Z.
Proof.
  intros H. destruct (Z.lt_trichotomy nstps 0) as [Hn|[Hn|Hn]]; [| |lia].
  - unfold integrate_run in H. now rewrite (init_negative Hn) in H.
  - unfold integrate_run in H. now rewrite (init_zero Hn) in H.
Qed.

End Run.

Lemma take_insert_last {A : Type} (l : list A) (p : nat) (v : A) :
  p < length l -> take (S p) (<[p := v]> l) = take p l ++ [v].
Proof.
  intros H. rewrite (take_S_r _ _ v) by now apply list_lookup_insert_eq.
  now rewrite take_insert_ge.
Qed.

(** C1, as the code has it: a run that returns left the loop in one of two
    ways.  Left by the [break] of iteration i, it chose there, for the first
    time, a step size below prec; it appended to the samples stored on
    entry exactly one point, of xi the new xi plus H_P[0] taken at the
    previous point and of state the new state; and no later row of the dense
    arrays was written.  Otherwise it went through all its iterations and
    none of them chose a step size below prec. *)
Theorem integrate_exits (pow : float -> float -> float) (n h : float) (nstps : Z)
    (prec dx_store : float) (st : frame) (e : exit) :
  integrate_run pow n h nstps prec dx_store = Ok (st, e) ->
  match e with
  | Break i =>
      exists st_b xp yp,
        entry pow n h nstps prec dx_store i = Ok (st_b, Exhausted) /\
        x st_b !! (i - 1) = Some xp /\ y st_b !! (i - 1) = Some yp /\
        (step_size pow xp yp n <? prec)%float = true /\
        stored st =
          ((stored st_b).1 ++
             [(xp + step_size pow xp yp n + (scale_length pow xp yp n).1)%float],
           (stored st_b).2 ++ [rk4 xp (step_size pow xp yp n) yp (LE pow) n]) /\
        (forall j, 1 <= j < i -> slow pow n prec st j) /\
        (forall j, i < j < Z.to_nat nstps ->
           x st !! j = Some 0%float /\ y st !! j = Some (0%float, 0%float))
  | Exhausted =>
      forall j, 1 <= j < Z.to_nat nstps -> slow pow n prec st j
  end.
Proof.
  intros H. pose proof (run_Ok_nstps _ _ _ _ _ _ _ _ H) as Hn.
  destruct (run_cases pow n h prec dx_store nstps Hn) as (st1 & e1 & H1 & Hc).
  rewrite H in H1. injection H1 as <- <-.
  destruct e as [i|].
  - destruct Hc as (Hi & st_b & Hent & Hinv & Hdone).
    destruct Hdone as [Hsh [Hp Hpi] _ Hsl (xp & yp & Hx & Hy & Hf & Hxs & Hys) _ Hfr].
    exists st_b, xp, yp. repeat split; try assumption.
    + unfold stored. rewrite Hp, Hxs, Hys.
      destruct Hinv as [[] ? _ _ _ _].
      rewrite !take_insert_last by lia. reflexivity.
    + now apply Hfr.
    + now apply Hfr.
  - now destruct Hc.
Qed.

Lemma integrate_exits_witness :
  exists st e,
    integrate_run pow_ieee 0 2.449 3 1.0e-4 0.1 = Ok (st, e) /\
    match e with
    | Break i =>
        exists st_b xp yp,
          entry pow_ieee 0 2.449 3 1.0e-4 0.1 i = Ok (st_b, Exhausted) /\
          x st_b !! (i - 1) = Some xp /\ y st_b !! (i - 1) = Some yp /\
          (step_size pow_ieee xp yp 0 <? 1.0e-4)%float = true /\
          stored st =
            ((stored st_b).1 ++
               [(xp + step_size pow_ieee xp yp 0 + (scale_length pow_ieee xp yp 0).1)%float],
             (stored st_b).2 ++ [rk4 xp (step_size pow_ieee xp yp 0) yp (LE pow_ieee) 0%float]) /\
          (forall j, 1 <= j < i -> slow pow_ieee 0 1.0e-4 st j) /\
          (forall j, i < j < Z.to_nat 3 ->
             x st !! j = Some 0%float /\ y st !! j = Some (0%float, 0%float))
    | Exhausted =>
        forall j, 1 <= j < Z.to_nat 3 -> slow pow_ieee 0 1.0e-4 st j
    end.
Proof.
  eexists _, _.
  refine ((fun H => conj H (integrate_exits pow_ieee 0 2.449 3 1.0e-4 0.1 _ _ H)) _).
  vm_compute. reflexivity.
Defined.

(** C1 fails as stated: with two rows the loop runs once, chooses a step
    size that is not below prec, and the call returns all the same. *)
Lemma exit_counterexample :
  (step_size pow_ieee 0.001 (center pow_ieee 0.001 0) 0 <? 1.0e-6)%float = false /\
  (exists st, integrate_run pow_ieee 0 0.001 2 1.0e-6 0.1 = Ok (st, Exhausted)) /\
  integrate pow_ieee 0 0.001 2 1.0e-6 0.1 = Ok ([0.001%float], [center pow_ieee 0.001 0]).
Proof.
  split; [reflexivity|]. split; [|reflexivity].
  eexists. vm_compute. reflexivity.
Qed.

Lemma ltb_irrefl (a : float) : (a <? a)%float = false.
Proof.
  rewrite ltb_spec. unfold SFltb, SFcompare.
  destruct (Prim2SF a) as [[]|[]| |[] m e]; try reflexivity;
    rewrite Z.compare_refl, Pos.compare_cont_refl; reflexivity.
Qed.

Lemma ltb_asym (a b : float) : (a <? b)%float = true -> (b <? a)%float = false.
Proof.
  rewrite !ltb_spec. unfold SFltb, SFcompare.
  destruct (Prim2SF a) as [[]|[]| |[] ma ea], (Prim2SF b) as [[]|[]| |[] mb eb];
    try reflexivity; try discriminate;
    rewrite (Z.compare_antisym ea eb);
    change (Pos.compare_cont Eq mb ma) with (Pos.compare_cont (CompOpp Eq) mb ma);
    rewrite <- (Pos.compare_cont_antisym ma mb Eq);
    destruct (ea ?= eb)%Z; cbn; try discriminate; try reflexivity;
    destruct (Pos.compare_cont Eq ma mb); cbn; try discriminate; reflexivity.
Qed.

(** C3: in a run that returns, every iteration i >= 1 that was gone through
    advanced from the previous dense point (xp, (y0, y1)).  Its step size
    is 0.05 times the minimum of |y0/y0'| and |y1/y1'| there, for the
    derivative (y0', y1') = (y1, -y0**n - 2*y1/xp): the minimum is the
    second unless it fails to compare below the first, and neither
    compares below it.  The new xi is xp plus the step size, and the new
    state is y + h*(k1 + 2*k2 + 2*k3 + k4)/6 for the four stages of the
    classical Runge-Kutta scheme at that step size. *)
Theorem integrate_steps (pow : float -> float -> float) (n h : float) (nstps : Z)
    (prec dx_store : float) (st : frame) (e : exit) (i : nat) :
  integrate_run pow n h nstps prec dx_store = Ok (st, e) ->
  1 <= i <= iterations e nstps ->
  exists xp y0 y1,
    x st !! (i - 1) = Some xp /\ y st !! (i - 1) = Some (y0, y1) /\
    let f := fun t u0 u1 : float => (u1, (- pow u0 n - 2 * u1 / t)%float) in
    let H0 := abs (y0 / y1) in
    let H1 := abs (y1 / (- pow y0 n - 2 * y1 / xp)) in
    let m := if (H1 <? H0)%float then H1 else H0 in
    let hi := (0.05 * m)%float in
    let k1 := f xp y0 y1 in
    let k2 := f (xp + hi / 2)%float (y0 + hi / 2 * k1.1)%float (y1 + hi / 2 * k1.2)%float in
    let k3 := f (xp + hi / 2)%float (y0 + hi / 2 * k2.1)%float (y1 + hi / 2 * k2.2)%float in
    let k4 := f (xp + hi)%float (y0 + hi * k3.1)%float (y1 + hi * k3.2)%float in
    x st !! i = Some (xp + hi)%float /\
    y st !! i = Some ((y0 + hi * (k1.1 + 2 * k2.1 + 2 * k3.1 + k4.1) / 6)%float,
                      (y1 + hi * (k1.2 + 2 * k2.2 + 2 * k3.2 + k4.2) / 6)%float) /\
    (H0 <? m)%float = false /\ (H1 <? m)%float = false.
Proof.
  intros H Hi. pose proof (run_Ok_nstps _ _ _ _ _ _ _ _ H) as Hn.
  destruct (run_cases pow n h prec dx_store nstps Hn) as (st1 & e1 & H1 & Hc).
  rewrite H in H1. injection H1 as <- <-.
  assert (Hadv : advanced pow n st i).
  { destruct e as [j|]; cbn [iterations] in Hi.
    - destruct Hc as (_ & st_b & _ & _ & Hdone).
      now apply (done_adv _ _ _ _ _ _ _ _ _ Hdone).
    - apply (inv_adv _ _ _ _ _ _ _ _ Hc). lia. }
  destruct Hadv as (xp & [y0 y1] & Hx & Hy & Hxi & Hyi).
  exists xp, y0, y1. split; [exact Hx|]. split; [exact Hy|]. cbv zeta.
  split; [exact Hxi|]. split; [exact Hyi|].
  destruct (abs (y1 / (- pow y0 n - 2 * y1 / xp)) <? abs (y0 / y1))%float eqn:Hlt.
  - split; [now apply ltb_asym | apply ltb_irrefl].
  - split; [apply ltb_irrefl | exact Hlt].
Qed.

Lemma integrate_steps_witness :
  exists st e,
    integrate_run pow_ieee 0 0.001 3 1.0e-6 0.1 = Ok (st, e) /\
    1 <= 2 <= iterations e 3 /\
    exists xp y0 y1,
      x st !! (2 - 1) = Some xp /\ y st !! (2 - 1) = Some (y0, y1) /\
      let f := fun t u0 u1 : float => (u1, (- pow_ieee u0 0 - 2 * u1 / t)%float) in
      let H0 := abs (y0 / y1) in
      let H1 := abs (y1 / (- pow_ieee y0 0 - 2 * y1 / xp)) in
      let m := if (H1 <? H0)%float then H1 else H0 in
      let hi := (0.05 * m)%float in
      let k1 := f xp y0 y1 in
      let k2 := f (xp + hi / 2)%float (y0 + hi / 2 * k1.1)%float (y1 + hi / 2 * k1.2)%float in
      let k3 := f (xp + hi / 2)%float (y0 + hi / 2 * k2.1)%float (y1 + hi / 2 * k2.2)%float in
      let k4 := f (xp + hi)%float (y0 + hi * k3.1)%float (y1 + hi * k3.2)%float in
      x st !! 2 = Some (xp + hi)%float /\
      y st !! 2 = Some ((y0 + hi * (k1.1 + 2 * k2.1 + 2 * k3.1 + k4.1) / 6)%float,
                        (y1 + hi * (k1.2 + 2 * k2.2 + 2 * k3.2 + k4.2) / 6)%float) /\
      (H0 <? m)%float = false /\ (H1 <? m)%float = false.
Proof.
  eexists _, _.
  refine ((fun H Hi => conj H (conj Hi
             (integrate_steps pow_ieee 0 0.001 3 1.0e-6 0.1 _ _ 2 H Hi))) _ _).
  - vm_compute. reflexivity.
  - vm_compute. split; repeat constructor.
Defined.

(** What a returned frame keeps of the invariants. *)
Lemma run_facts (pow : float -> float -> float) (n h : float) (nstps : Z)
    (prec dx_store : float) (st : frame) (e : exit) :
  integrate_run pow n h nstps prec dx_store = Ok (st, e) ->
  shape pow n h (Z.to_nat nstps) st /\
  str_ptr st < Z.to_nat nstps /\
  match e with
  | Break _ => 1 <= str_ptr st /\ spaced dx_store (x_store st) (str_ptr st - 1)
  | Exhausted => spaced dx_store (x_store st) (str_ptr st)
  end.
Proof.
  intros H. pose proof (run_Ok_nstps _ _ _ _ _ _ _ _ H) as Hn.
  destruct (run_cases pow n h prec dx_store nstps Hn) as (st1 & e1 & H1 & Hc).
  rewrite H in H1. injection H1 as <- <-.
  destruct e as [j|].
  - destruct Hc as (Hj & st_b & _ & _ & [Hsh [Hp Hpj] _ _ _ Hsp _]).
    split; [exact Hsh|]. split; [lia|]. split; [lia|].
    now replace (str_ptr st - 1) with (str_ptr st_b) by lia.
  - destruct Hc as [Hsh Hp _ _ Hsp _]. split; [exact Hsh|]. split; [lia|exact Hsp].
Qed.

Lemma spaced_take (dx_store : float) (l : list float) (p m : nat) :
  m <= p -> spaced dx_store l m -> spaced dx_store (take (S p) l) m.
Proof.
  intros Hm H k a b Hk. rewrite !lookup_take_lt by lia. now apply H.
Qed.

Lemma take_head {A : Type} (l : list A) (p : nat) (v : A) :
  l !! 0 = Some v -> exists t, take (S p) l = v :: t.
Proof. destruct l as [|a l]; [easy|]. intros [= ->]. now eexists. Qed.

(** C9, as the code has it: the two sequences a call returns have equal
    length, start with the offset h and the state center(h, n), and every
    stored xi but the last exceeds its predecessor by more than dx_store;
    the last one may be the terminal sample, of which no order is kept. *)
Theorem integrate_sequences (pow : float -> float -> float) (n h : float) (nstps : Z)
    (prec dx_store : float) (xs : list float) (ys : list vec) :
  integrate pow n h nstps prec dx_store = Ok (xs, ys) ->
  length xs = length ys /\
  (exists xs' ys', xs = h :: xs' /\ ys = center pow h n :: ys') /\
  spaced dx_store xs (length xs - 2).
Proof.
  unfold integrate. destruct (integrate_run pow n h nstps prec dx_store)
    as [[st e]|] eqn:H; [|discriminate].
  rewrite bind_Ok. unfold stored. intros [= <- <-].
  destruct (run_facts _ _ _ _ _ _ _ _ H) as ([Ly Lx Lxs Lys X0 Y0 XS0 YS0] & Hp & He).
  split; [|split].
  - rewrite !length_take_le by lia. reflexivity.
  - destruct (take_head _ (str_ptr st) _ XS0) as [xs' ->].
    destruct (take_head _ (str_ptr st) _ YS0) as [ys' ->]. now exists xs', ys'.
  - rewrite length_take_le by lia. apply spaced_take; [lia|].
    destruct e as [j|].
    + replace (S (str_ptr st) - 2) with (str_ptr st - 1) by lia. apply He.
    + intros k a b Hk. apply He. lia.
Qed.

Lemma integrate_sequences_witness :
  exists xs ys,
    integrate_default pow_ieee 1 = Ok (xs, ys) /\
    length xs = length ys /\
    (exists xs' ys', xs = 0.001%float :: xs' /\ ys = center pow_ieee 0.001 1 :: ys') /\
    spaced 0.1 xs (length xs - 2).
Proof.
  eexists _, _.
  refine ((fun H => conj H (integrate_sequences pow_ieee 1 0.001 1000 1.0e-6 0.1 _ _ H)) _).
  vm_compute. reflexivity.
Defined.

(** C9 fails as stated: started at the offset next above the square root of
    6, where the series of index 0 is 0.0, the default call chooses a step
    size of 0.0 and returns the same xi twice. *)
Lemma increasing_counterexample :
  integrate pow_ieee 0 0x1.3988e1409212fp+1 1000 1.0e-6 0.1 =
    Ok ([0x1.3988e1409212fp+1; 0x1.3988e1409212fp+1]%float,
        [center pow_ieee 0x1.3988e1409212fp+1 0; center pow_ieee 0x1.3988e1409212fp+1 0]) /\
  (center pow_ieee 0x1.3988e1409212fp+1 0).1 = 0%float /\
  (0 <? 0x1.3988e1409212fp+1)%float = true /\
  (0x1.3988e1409212fp+1 <? 0x1.3988e1409212fp+1)%float = false.
Proof. repeat split; vm_compute; reflexivity. Qed.

(** C10, as the code has it: in the returned xi sequence every sample put
    there by the storage check exceeds its predecessor by more than
    dx_store.  That is every gap when the loop ran out, and every gap but
    the last when [break] ended it: the terminal sample is stored without
    the check. *)
Theorem stored_spacing (pow : float -> float -> float) (n h : float) (nstps : Z)
    (prec dx_store : float) (st : frame) (e : exit) :
  integrate_run pow n h nstps prec dx_store = Ok (st, e) ->
  match e with
  | Exhausted => spaced dx_store (stored st).1 (length (stored st).1 - 1)
  | Break _ => spaced dx_store (stored st).1 (length (stored st).1 - 2)
  end.
Proof.
  intros H.
  destruct (run_facts _ _ _ _ _ _ _ _ H) as ([Ly Lx Lxs Lys _ _ _ _] & Hp & He).
  unfold stored; cbn [fst]. rewrite length_take_le by lia.
  destruct e as [j|]; apply spaced_take; try lia.
  - replace (S (str_ptr st) - 2) with (str_ptr st - 1) by lia. apply He.
  - replace (S (str_ptr st) - 1) with (str_ptr st) by lia. exact He.
Qed.

Lemma stored_spacing_witness :
  exists st,
    integrate_run pow_ieee 0 0.001 1000 1.0e-6 0.1 = Ok (st, Break 357) /\
    length (stored st).1 = 23 /\
    spaced 0.1 (stored st).1 (length (stored st).1 - 2).
Proof.
  eexists. split; [vm_compute; reflexivity|]. split; [vm_compute; reflexivity|].
  apply (stored_spacing pow_ieee 0 0.001 1000 1.0e-6 0.1 _ (Break 357)).
  vm_compute. reflexivity.
Defined.

(** C10 fails as stated.  Started at 2.449 with prec = 1e-4, the first
    iteration chooses a step size below prec and the terminal sample lands
    0.0005 after the first; and in the default call of index 0 the terminal
    sample is the 23rd, 0.028 after the 22nd.  The spacing is 0.1 in both. *)
Lemma spacing_counterexample :
  (exists ys,
     integrate pow_ieee 0 2.449 3 1.0e-4 0.1 = Ok ([2.449; 2.4495142813393223]%float, ys)) /\
  (2.449 + 0.1 <? 2.4495142813393223)%float = false /\
  (exists xs ys,
     integrate_default pow_ieee 0 = Ok (xs, ys) /\ length xs = 23 /\
     xs !! 21 = Some 2.4210691067028631%float /\
     xs !! 22 = Some 2.4494907126976564%float) /\
  (2.4210691067028631 + 0.1 <? 2.4494907126976564)%float = false.
Proof.
  split; [eexists; vm_compute; reflexivity|]. split; [reflexivity|].
  split; [|reflexivity].
  eexists _, _. split; [vm_compute; reflexivity|]. repeat split.
Qed.

(** C2, as the code has it: a call with nstps >= 1 returns, with the
    samples stored so far, however its loop ended; when the loop ran out,
    no iteration had chosen a step size below prec, and nothing reports
    it. *)
Theorem integrate_returns (pow : float -> float -> float) (n h : float) (nstps : Z)
    (prec dx_store : float) :
  (1 <= nstps)%Z ->
  exists st e,
    integrate_run pow n h nstps prec dx_store = Ok (st, e) /\
    integrate pow n h nstps prec dx_store = Ok (stored st) /\
    (e = Exhausted -> forall i, 1 <= i < Z.to_nat nstps -> slow pow n prec st i).
Proof.
  intros Hn.
  destruct (run_cases pow n h prec dx_store nstps Hn) as (st & e & H & Hc).
  exists st, e. split; [exact H|]. split.
  - unfold integrate. now rewrite H.
  - intros ->. now destruct Hc.
Qed.

Lemma integrate_returns_witness :
  exists st e,
    integrate_run pow_ieee 0 0.001 4 1.0e-6 0.1 = Ok (st, e) /\
    integrate pow_ieee 0 0.001 4 1.0e-6 0.1 = Ok (stored st) /\
    (e = Exhausted -> forall i, 1 <= i < Z.to_nat 4 -> slow pow_ieee 0 1.0e-6 st i).
Proof. apply (integrate_returns pow_ieee 0 0.001 4 1.0e-6 0.1). lia. Defined.

(** C2 fails as stated: with three rows and index 1 the two iterations
    choose step sizes that are not below prec, the loop runs out, and the
    call returns its one stored sample without an error. *)
Lemma budget_counterexample :
  (exists st, integrate_run pow_ieee 1 0.001 3 1.0e-6 0.1 = Ok (st, Exhausted)) /\
  integrate pow_ieee 1 0.001 3 1.0e-6 0.1 = Ok ([0.001%float], [center pow_ieee 0.001 1]).
Proof. split; [eexists|]; vm_compute; reflexivity. Qed.

(** C8, as the code has it: [integrate] checks none of h, prec, dx_store
    and n.  It raises exactly when nstps is below 1, and then in the
    statements before its loop, so before any step: a ValueError from
    [np.zeros] when nstps is negative, an IndexError from [x[0] = h] when
    it is 0. *)
Theorem integrate_rejects (pow : float -> float -> float) (n h : float) (nstps : Z)
    (prec dx_store : float) :
  match integrate pow n h nstps prec dx_store with
  | Ok _ => (1 <= nstps)%Z
  | Raise e =>
      init pow n h nstps = Raise e /\
      match e with
      | IndexError => nstps = 0%Z
      | ValueError => (nstps < 0)%Z
      end
  end.
Proof.
  unfold integrate, integrate_run.
  destruct (Z.lt_trichotomy nstps 0) as [Hn|[Hn|Hn]].
  - now rewrite (init_negative _ _ _ _ Hn).
  - now rewrite (init_zero _ _ _ _ Hn).
  - destruct (run_cases pow n h prec dx_store nstps) as (st & e & H & _); [lia|].
    unfold integrate_run in H. rewrite H, bind_Ok. lia.
Qed.

(** C8 fails as stated: with h = -0.001, prec = 0 and dx_store = -1 the
    call takes its step and returns both points. *)
Lemma config_counterexample :
  integrate pow_ieee 0 (-0.001) 2 0 (-1) =
    Ok ([-0.001; -0.00095]%float,
        [center pow_ieee (-0.001) 0;
         rk4 (-0.001)%float
           (step_size pow_ieee (-0.001) (center pow_ieee (-0.001) 0) 0)
           (center pow_ieee (-0.001) 0) (LE pow_ieee) 0%float]).
Proof. vm_compute. reflexivity. Qed.

(** * Further properties *)

(** ** More IEEE facts *)

Lemma add_nan_r (a : float) : (a + nan)%float = nan.
Proof.
  apply Prim2SF_inj. rewrite add_spec.
  unfold SF64add, SFadd. change (Prim2SF nan) with S754_nan.
  destruct (Prim2SF a); reflexivity.
Qed.

Lemma mul_nan_l (a : float) : (nan * a)%float = nan.
Proof.
  apply Prim2SF_inj. rewrite mul_spec.
  unfold SF64mul, SFmul. change (Prim2SF nan) with S754_nan. reflexivity.
Qed.

Lemma mul_nan_r (a : float) : (a * nan)%float = nan.
Proof.
  apply Prim2SF_inj. rewrite mul_spec.
  unfold SF64mul, SFmul. change (Prim2SF nan) with S754_nan.
  destruct (Prim2SF a); reflexivity.
Qed.

Lemma div_nan_l (a : float) : (nan / a)%float = nan.
Proof.
  apply Prim2SF_inj. rewrite div_spec.
  unfold SF64div, SFdiv. change (Prim2SF nan) with S754_nan. reflexivity.
Qed.

Lemma div_nan_r (a : float) : (a / nan)%float = nan.
Proof.
  apply Prim2SF_inj. rewrite div_spec.
  unfold SF64div, SFdiv. change (Prim2SF nan) with S754_nan.
  destruct (Prim2SF a); reflexivity.
Qed.

Lemma ltb_nan_l (a : float) : (nan <? a)%float = false.
Proof.
  rewrite ltb_spec. unfold SFltb, SFcompare.
  change (Prim2SF nan) with S754_nan. reflexivity.
Qed.

Lemma ltb_nan_r (a : float) : (a <? nan)%float = false.
Proof.
  rewrite ltb_spec. unfold SFltb, SFcompare.
  change (Prim2SF nan) with S754_nan. destruct (Prim2SF a); reflexivity.
Qed.

Lemma round_sign (sx : bool) (mx ex : Z) (lx : location) :
  sign_of (binary_round_aux prec emax sx mx ex lx) <> Some (negb sx).
Proof.
  unfold binary_round_aux.
  destruct (shr_fexp prec emax mx ex lx) as [mrs' e'].
  destruct (shr_fexp prec emax _ e' loc_Exact) as [mrs'' e''].
  destruct (shr_m mrs'') as [|m|m]; cbn; try (destruct sx; discriminate).
  destruct (e'' <=? emax - prec)%Z; cbn; destruct sx; discriminate.
Qed.

Lemma round_opp (sx : bool) (mx ex : Z) (lx : location) :
  binary_round_aux prec emax (negb sx) mx ex lx =
  SFopp (binary_round_aux prec emax sx mx ex lx).
Proof.
  unfold binary_round_aux.
  destruct (shr_fexp prec emax mx ex lx) as [mrs' e'].
  destruct (shr_fexp prec emax _ e' loc_Exact) as [mrs'' e''].
  destruct (shr_m mrs'') as [|m|m]; cbn; try reflexivity.
  destruct (e'' <=? emax - prec)%Z; reflexivity.
Qed.

Lemma abs_unsigned (a : float) : unsigned (Prim2SF (abs a)).
Proof. rewrite abs_spec. unfold unsigned. destruct (Prim2SF a); cbn; congruence. Qed.

Lemma mul_unsigned (a b : float) :
  unsigned (Prim2SF a) -> unsigned (Prim2SF b) -> unsigned (Prim2SF (a * b)).
Proof.
  rewrite mul_spec. unfold unsigned, SF64mul, SFmul.
  destruct (Prim2SF a) as [sa|sa| |sa ma ea], (Prim2SF b) as [sb|sb| |sb mb eb];
    cbn; intros Ha Hb; try congruence;
    try (destruct sa, sb; cbn; congruence).
  destruct sa; [congruence|]. destruct sb; [congruence|].
  apply (round_sign false).
Qed.

(** An unsigned value is not below a value that is at most zero. *)
Lemma unsigned_not_below (a b : float) :
  unsigned (Prim2SF a) -> (b <=? 0)%float = true -> (a <? b)%float = false.
Proof.
  rewrite leb_spec, ltb_spec. change (Prim2SF 0) with (S754_zero false).
  unfold unsigned, SFleb, SFltb, SFcompare.
  destruct (Prim2SF a) as [sa|sa| |sa ma ea], (Prim2SF b) as [sb|sb| |sb mb eb];
    cbn; intros Ha Hb; try reflexivity; try discriminate;
    try (destruct sa; [congruence|]); try (destruct sb; try discriminate);
    reflexivity.
Qed.

Lemma mul_opp_l (a b : float) : (- a * b)%float = (- (a * b))%float.
Proof.
  apply Prim2SF_inj. rewrite opp_spec, !mul_spec, opp_spec.
  unfold SF64mul, SFmul.
  destruct (Prim2SF a) as [sa|sa| |sa ma ea], (Prim2SF b) as [sb|sb| |sb mb eb];
    try reflexivity; try (destruct sa, sb; reflexivity).
  cbn [SFopp]. rewrite <- (round_opp (xorb sa sb)). now destruct sa, sb.
Qed.

(** ** The step size *)

Lemma py_min_unsigned (v : vec) : unsigned (Prim2SF (py_min (Vec.abs v))).
Proof.
  unfold py_min, Vec.abs; cbn [fst snd].
  destruct (abs v.2 <? abs v.1)%float; apply abs_unsigned.
Qed.

Lemma step_size_unsigned (pow : float -> float -> float) (xp : float) (yp : vec)
    (n : float) :
  unsigned (Prim2SF (step_size pow xp yp n)).
Proof.
  unfold step_size, scale_length. apply mul_unsigned; [|apply py_min_unsigned].
  vm_compute. discriminate.
Qed.

(** The step size chosen from a point is never below zero, whatever the
    point and the index: it is NaN, zero, positive or infinite. *)
Theorem step_size_not_negative (pow : float -> float -> float) (xp : float)
    (yp : vec) (n : float) :
  (step_size pow xp yp n <? 0)%float = false.
Proof. apply unsigned_not_below; [apply step_size_unsigned | reflexivity]. Qed.

(** Python's [min] keeps its first element when the second is a NaN, and a
    NaN that comes first: the step size is NaN when the scale length of y0
    is, and 0.05 times the scale length of y0 when only that of y1 is. *)
Theorem step_size_nan (pow : float -> float -> float) (xp : float) (yp : vec)
    (n : float) :
  ((scale_length pow xp yp n).1 = nan -> step_size pow xp yp n = nan) /\
  ((scale_length pow xp yp n).2 = nan ->
   step_size pow xp yp n = (0.05 * (scale_length pow xp yp n).1)%float).
Proof.
  unfold step_size, py_min. split; intros ->.
  - rewrite ltb_nan_r. apply mul_nan_r.
  - now rewrite ltb_nan_l.
Qed.

Lemma step_size_nan_witness :
  step_size pow_ieee nan (1, -0.5)%float 0 = (0.05 * 2)%float /\
  step_size pow_ieee 1 (nan, -0.5)%float 0 = nan.
Proof.
  split.
  - exact (proj2 (step_size_nan pow_ieee nan (1, -0.5)%float 0) eq_refl).
  - exact (proj1 (step_size_nan pow_ieee 1 (nan, -0.5)%float 0) eq_refl).
Defined.

(** ** NaN through [rk4] *)

Lemma rk4_nan_step {A : Type} (t : float) (y0 : vec) (f : float -> vec -> A -> vec)
    (args : A) :
  rk4 t nan y0 f args = (nan, nan).
Proof.
  unfold rk4, Vec.add, Vec.div_scalar, Vec.scale; cbn [fst snd].
  now rewrite !mul_nan_l, !div_nan_l, !add_nan_r.
Qed.

(** A step of [rk4] with a NaN step size gives the state (NaN, NaN),
    whatever the derivative function returns. *)
Theorem rk4_nan {A : Type} (t : float) (y0 : vec) (f : float -> vec -> A -> vec)
    (args : A) :
  rk4 t nan y0 f args = (nan, nan).
Proof. apply rk4_nan_step. Qed.

(** ** The parity of [center] *)

(** Where [**] gives the same square for h and -h, the starting state at
    -h is that at h with its second component negated: the series is even
    in y0 and odd in y1.  The two sides are the same float64 values, all
    NaNs counting as one; the sign of a NaN is not compared. *)
Theorem center_parity (pow : float -> float -> float) (h n : float) :
  pow (- h)%float 2%float = pow h 2%float ->
  center pow (- h) n = ((center pow h n).1, (- (center pow h n).2)%float).
Proof.
  intros E. unfold center; cbn [fst snd]. rewrite E. now rewrite mul_opp_l.
Qed.

Lemma center_parity_witness :
  center pow_ieee (- 0.001) 1.5 =
    ((center pow_ieee 0.001 1.5).1, (- (center pow_ieee 0.001 1.5).2)%float).
Proof. apply (center_parity pow_ieee 0.001 1.5). reflexivity. Defined.

(** ** More on the driver *)

Lemma loop_app (pow : float -> float -> float) (n prec dx_store : float)
    (l1 l2 : list nat) : forall st : frame,
  loop pow n prec dx_store (l1 ++ l2) st =
    match loop pow n prec dx_store l1 st with
    | Ok (st', Exhausted) => loop pow n prec dx_store l2 st'
    | r => r
    end.
Proof.
  induction l1 as [|i l1 IH]; intros st; [reflexivity|].
  cbn [app loop]. destruct (body pow n prec dx_store i st) as [[st' b]|e]; [|reflexivity].
  rewrite !bind_Ok. destruct b; [reflexivity|]. apply IH.
Qed.

Section Rule.

Variable pow : float -> float -> float.
Variables (n h0 prec dx_store : float) (N : nat).

(** What an iteration entered with [st] leaves, case by case. *)
Lemma body_inv_cases (i : nat) (st st' : frame) (b : bool) :
  Inv pow n h0 prec dx_store N i st -> 1 <= i < N ->
  body pow n prec dx_store i st = Ok (st', b) ->
  exists xp yp last,
    x st !! (i - 1) = Some xp /\ y st !! (i - 1) = Some yp /\
    x_store st !! str_ptr st = Some last /\
    let h := step_size pow xp yp n in
    let xi := (xp + h)%float in
    let yi := rk4 xp h yp (LE pow) n in
    let y' := <[i := yi]> (y st) in
    let x' := <[i := xi]> (x st) in
    let ptr := S (str_ptr st) in
    (b = true /\ (h <? prec)%float = true /\
     st' = Frame y' x' (<[ptr := (xi + (scale_length pow xp yp n).1)%float]> (x_store st))
             (<[ptr := yi]> (y_store st)) ptr) \/
    (b = false /\ (h <? prec)%float = false /\ (last + dx_store <? xi)%float = true /\
     st' = Frame y' x' (<[ptr := xi]> (x_store st)) (<[ptr := yi]> (y_store st)) ptr) \/
    (b = false /\ (h <? prec)%float = false /\ (last + dx_store <? xi)%float = false /\
     st' = Frame y' x' (x_store st) (y_store st) (str_ptr st)).
Proof.
  intros [[Ly Lx Lxs Lys _ _ _ _] Hp _ _ _ _] Hi.
  destruct (lookup_lt_is_Some_2 (x st) (i - 1)) as [xp Hx]; [lia|].
  destruct (lookup_lt_is_Some_2 (y st) (i - 1)) as [yp Hy]; [lia|].
  destruct (lookup_lt_is_Some_2 (x_store st) (str_ptr st)) as [last Hl]; [lia|].
  rewrite (body_cases pow n prec dx_store i st xp yp last) by (assumption || lia).
  intros H. exists xp, yp, last. split; [exact Hx|]. split; [exact Hy|].
  split; [exact Hl|]. cbv zeta.
  destruct (step_size pow xp yp n <? prec)%float.
  - injection H as <- <-. left. now split.
  - destruct (last + dx_store <? xp + step_size pow xp yp n)%float;
      injection H as <- <-; [right; left | right; right]; now repeat split.
Qed.

Variable P : nat -> frame -> Prop.

Hypothesis P_step : forall (i : nat) (st st' : frame),
  Inv pow n h0 prec dx_store N i st -> P i st -> 1 <= i < N ->
  body pow n prec dx_store i st = Ok (st', false) -> P (S i) st'.

(** A property of the frame on entry that every iteration without [break]
    hands on holds on entry to the iteration of the [break], and after
    the loop when there is none. *)
Lemma loop_rule (k : nat) : forall (i : nat) (st : frame),
  Inv pow n h0 prec dx_store N i st -> P i st -> 1 <= i -> i + k <= N ->
  exists st' e,
    loop pow n prec dx_store (seq i k) st = Ok (st', e) /\
    match e with
    | Exhausted => Inv pow n h0 prec dx_store N (i + k) st' /\ P (i + k) st'
    | Break j =>
        i <= j < i + k /\
        exists st_b,
          Inv pow n h0 prec dx_store N j st_b /\ P j st_b /\
          body pow n prec dx_store j st_b = Ok (st', true) /\
          Done pow n h0 prec dx_store N j st_b st'
    end.
Proof using P_step.
  induction k as [|k IH]; intros i st HI HP Hi Hk.
  - exists st, Exhausted. split; [reflexivity|]. now rewrite Nat.add_0_r.
  - destruct (body_inv pow n h0 prec dx_store N i st HI) as (st1 & b & Hb & Hst1); [lia|].
    cbn [seq loop]. rewrite Hb, bind_Ok. destruct b.
    + exists st1, (Break i). split; [reflexivity|]. split; [lia|].
      exists st. split; [exact HI|]. split; [exact HP|]. split; [exact Hb|exact Hst1].
    + assert (HP1 : P (S i) st1) by (apply (P_step i st); [assumption..|lia|assumption]).
      destruct (IH (S i) st1 Hst1 HP1) as (st2 & e & He & Hst2); [lia..|].
      exists st2, e. split; [exact He|]. destruct e as [j|].
      * destruct Hst2 as (Hj & st_b & ?). split; [lia|]. now exists st_b.
      * now replace (i + S k) with (S i + k) by lia.
Qed.

End Rule.

Section Entry.

Variable pow : float -> float -> float.
Variables (n h prec dx_store : float) (nstps : Z).

(** The frame on entry to an iteration that is reached. *)
Lemma entry_inv (i : nat) (st_b : frame) :
  entry pow n h nstps prec dx_store i = Ok (st_b, Exhausted) ->
  1 <= i <= Z.to_nat nstps ->
  Inv pow n h prec dx_store (Z.to_nat nstps) i st_b.
Proof.
  intros H Hi. destruct (init_inv pow n h prec dx_store nstps) as (st0 & H0 & HI); [lia|].
  unfold entry in H. rewrite H0, bind_Ok in H.
  destruct (loop_inv pow n h prec dx_store (Z.to_nat nstps) (i - 1) 1 st0 HI)
    as (st & e & He & Hst); [lia..|].
  rewrite He in H. injection H as -> ->.
  now replace (1 + (i - 1)) with i in Hst by lia.
Qed.

(** The run goes on from there. *)
Lemma run_from_entry (i : nat) (st_b : frame) :
  entry pow n h nstps prec dx_store i = Ok (st_b, Exhausted) ->
  1 <= i <= Z.to_nat nstps ->
  integrate_run pow n h nstps prec dx_store =
    loop pow n prec dx_store (seq i (Z.to_nat nstps - i)) st_b.
Proof.
  intros H Hi. unfold integrate_run, entry, xrange1 in *.
  destruct (init pow n h nstps) as [st0|]; [|discriminate].
  rewrite bind_Ok in *.
  replace (Z.to_nat nstps - 1) with ((i - 1) + (Z.to_nat nstps - i)) by lia.
  rewrite seq_app, loop_app, H. now replace (1 + (i - 1)) with i by lia.
Qed.

(** A property handed on by every iteration, and true of the seeded frame,
    holds when the run returns. *)
Lemma run_rule (P : nat -> frame -> Prop) :
  (forall (i : nat) (st st' : frame),
     Inv pow n h prec dx_store (Z.to_nat nstps) i st -> P i st ->
     1 <= i < Z.to_nat nstps ->
     body pow n prec dx_store i st = Ok (st', false) -> P (S i) st') ->
  (forall st0, init pow n h nstps = Ok st0 -> P 1 st0) ->
  forall (st : frame) (e : exit),
    integrate_run pow n h nstps prec dx_store = Ok (st, e) ->
    match e with
    | Exhausted =>
        Inv pow n h prec dx_store (Z.to_nat nstps) (Z.to_nat nstps) st /\
        P (Z.to_nat nstps) st
    | Break j =>
        1 <= j < Z.to_nat nstps /\
        exists st_b,
          Inv pow n h prec dx_store (Z.to_nat nstps) j st_b /\ P j st_b /\
          body pow n prec dx_store j st_b = Ok (st, true) /\
          Done pow n h prec dx_store (Z.to_nat nstps) j st_b st
    end.
Proof.
  intros Hstep Hinit st e H.
  pose proof (run_Ok_nstps _ _ _ _ _ _ _ _ H) as Hn.
  destruct (init_inv pow n h prec dx_store nstps Hn) as (st0 & H0 & HI).
  destruct (loop_rule pow n h prec dx_store (Z.to_nat nstps) P Hstep
              (Z.to_nat nstps - 1) 1 st0 HI (Hinit st0 H0))
    as (st1 & e1 & He & Hst); [lia..|].
  unfold integrate_run, xrange1 in H. rewrite H0, bind_Ok, He in H.
  injection H as <- <-. destruct e1 as [j|].
  - destruct Hst as (Hj & Hrest). split; [lia|exact Hrest].
  - now replace (1 + (Z.to_nat nstps - 1)) with (Z.to_nat nstps) in Hst by lia.
Qed.

End Entry.

Lemma unsigned_not_below_nonpos (a b : float) :
  unsigned (Prim2SF a) -> (0 <? b)%float = false -> (a <? b)%float = false.
Proof.
  rewrite !ltb_spec. change (Prim2SF 0) with (S754_zero false).
  unfold unsigned, SFltb, SFcompare.
  destruct (Prim2SF a) as [sa|sa| |sa ma ea], (Prim2SF b) as [sb|sb| |sb mb eb];
    cbn; intros Ha Hb; try reflexivity; try discriminate;
    try (destruct sa; [congruence|]); try (destruct sb; try discriminate);
    reflexivity.
Qed.

(** With a threshold prec that is not positive (zero, negative or NaN) no
    iteration reaches [break]: a run that returns has gone through all its
    nstps-1 iterations. *)
Theorem no_break_without_threshold (pow : float -> float -> float) (n h : float)
    (nstps : Z) (prec dx_store : float) (st : frame) (e : exit) :
  integrate_run pow n h nstps prec dx_store = Ok (st, e) ->
  (0 <? prec)%float = false ->
  e = Exhausted.
Proof.
  intros H Hprec. pose proof (run_Ok_nstps _ _ _ _ _ _ _ _ H) as Hn.
  destruct (run_cases pow n h prec dx_store nstps Hn) as (st1 & e1 & H1 & Hc).
  rewrite H in H1. injection H1 as <- <-.
  destruct e as [i|]; [exfalso|reflexivity].
  destruct Hc as (_ & st_b & _ & _ & Hdone).
  destruct (done_fast _ _ _ _ _ _ _ _ _ Hdone) as (xp & yp & _ & _ & Hfast & _).
  rewrite (unsigned_not_below_nonpos _ _ (step_size_unsigned pow xp yp n) Hprec) in Hfast.
  discriminate.
Qed.

Lemma no_break_without_threshold_witness :
  exists st e,
    integrate_run pow_ieee 0 2.449 4 0 0.1 = Ok (st, e) /\ e = Exhausted.
Proof.
  eexists _, _.
  refine ((fun H => conj H
             (no_break_without_threshold pow_ieee 0 2.449 4 0 0.1 _ _ H eq_refl)) _).
  vm_compute. reflexivity.
Defined.

(** The dense arrays of a run that returns have nstps rows, and the call
    returns at most one sample more than it went through iterations, so at
    most nstps samples; after a [break] it returns at least two. *)
Theorem integrate_sizes (pow : float -> float -> float) (n h : float) (nstps : Z)
    (prec dx_store : float) (st : frame) (e : exit) :
  integrate_run pow n h nstps prec dx_store = Ok (st, e) ->
  length (x st) = Z.to_nat nstps /\ length (y st) = Z.to_nat nstps /\
  length (stored st).1 = length (stored st).2 /\
  length (stored st).1 <= S (iterations e nstps) <= Z.to_nat nstps /\
  match e with
  | Break _ => 2 <= length (stored st).1
  | Exhausted => 1 <= length (stored st).1
  end.
Proof.
  intros H. pose proof (run_Ok_nstps _ _ _ _ _ _ _ _ H) as Hn.
  destruct (run_cases pow n h prec dx_store nstps Hn) as (st1 & e1 & H1 & Hc).
  rewrite H in H1. injection H1 as <- <-.
  unfold stored; cbn [fst snd].
  destruct e as [i|]; cbn [iterations].
  - destruct Hc as (Hi & st_b & _ & _ & [[Ly Lx Lxs Lys _ _ _ _] [Hp Hpi] _ _ _ _ _]).
    rewrite !length_take_le by lia. lia.
  - destruct Hc as [[Ly Lx Lxs Lys _ _ _ _] Hp _ _ _ _].
    rewrite !length_take_le by lia. lia.
Qed.

Lemma integrate_sizes_witness :
  exists st e,
    integrate_run pow_ieee 1 0.001 50 1.0e-6 0.1 = Ok (st, e) /\
    length (x st) = Z.to_nat 50 /\ length (y st) = Z.to_nat 50 /\
    length (stored st).1 = length (stored st).2 /\
    length (stored st).1 <= S (iterations e 50) <= Z.to_nat 50 /\
    match e with
    | Break _ => 2 <= length (stored st).1
    | Exhausted => 1 <= length (stored st).1
    end.
Proof.
  eexists _, _.
  refine ((fun H => conj H (integrate_sizes pow_ieee 1 0.001 50 1.0e-6 0.1 _ _ H)) _).
  vm_compute. reflexivity.
Defined.

(** *** The stored samples are dense points *)

Lemma copied_keep (i : nat) (js : list nat) (st : frame) (xi xt : float)
    (yi yt : vec) (p : nat) :
  length js <= S (str_ptr st) ->
  copied i js st ->
  copied (S i) js
    (Frame (<[i := yi]> (y st)) (<[i := xi]> (x st))
       (<[S (str_ptr st) := xt]> (x_store st)) (<[S (str_ptr st) := yt]> (y_store st)) p).
Proof.
  intros Hlen [Hc Hs]. split; [|exact Hs].
  intros k j Hk. destruct (Hc k j Hk) as (Hj & xj & yj & H1 & H2 & H3 & H4).
  pose proof (lookup_lt_Some _ _ _ Hk).
  split; [lia|]. exists xj, yj. cbn [y x x_store y_store].
  now rewrite !list_lookup_insert_ne by lia.
Qed.

Lemma copied_skip (i : nat) (js : list nat) (st : frame) (xi : float) (yi : vec) :
  copied i js st ->
  copied (S i) js
    (Frame (<[i := yi]> (y st)) (<[i := xi]> (x st)) (x_store st) (y_store st)
       (str_ptr st)).
Proof.
  intros [Hc Hs]. split; [|exact Hs].
  intros k j Hk. destruct (Hc k j Hk) as (Hj & xj & yj & H1 & H2 & H3 & H4).
  split; [lia|]. exists xj, yj. cbn [y x x_store y_store].
  now rewrite !list_lookup_insert_ne by lia.
Qed.

Lemma copied_store (i : nat) (js : list nat) (st : frame) (xi : float) (yi : vec)
    (N : nat) :
  length js = S (str_ptr st) ->
  length (x st) = N -> length (y st) = N ->
  length (x_store st) = N -> length (y_store st) = N ->
  S (str_ptr st) < N -> i < N ->
  copied i js st ->
  copied (S i) (js ++ [i])
    (Frame (<[i := yi]> (y st)) (<[i := xi]> (x st))
       (<[S (str_ptr st) := xi]> (x_store st)) (<[S (str_ptr st) := yi]> (y_store st))
       (S (str_ptr st))).
Proof.
  intros Hlen Lx Ly Lxs Lys Hp Hi Hc.
  pose proof (copied_keep i js st xi xi yi yi (S (str_ptr st)) ltac:(lia) Hc) as [Hc' Hs'].
  split.
  - intros k j Hk. apply lookup_app_Some in Hk as [Hk|[Hge Hk]]; [now apply Hc'|].
    apply list_lookup_singleton_Some in Hk as [Hk <-].
    replace k with (S (str_ptr st)) by lia.
    split; [lia|]. exists xi, yi. cbn [y x x_store y_store].
    now rewrite !list_lookup_insert_eq by lia.
  - intros k1 k2 j1 j2 Hk H1 H2.
    apply lookup_app_Some in H2 as [H2|[Hge H2]].
    + rewrite lookup_app_l in H1 by (apply lookup_lt_Some in H2; lia).
      now apply (Hs' k1 k2).
    + apply list_lookup_singleton_Some in H2 as [H2 <-].
      rewrite lookup_app_l in H1 by lia.
      destruct (Hc' k1 j1 H1) as (Hj & _). destruct Hc as [Hc _].
      destruct (Hc k1 j1 H1) as (Hj1 & _). exact Hj1.
Qed.

Lemma sampled_step (pow : float -> float -> float) (n h prec dx_store : float)
    (N i : nat) (st st' : frame) :
  Inv pow n h prec dx_store N i st -> sampled i st -> 1 <= i < N ->
  body pow n prec dx_store i st = Ok (st', false) -> sampled (S i) st'.
Proof.
  intros HI (js & Hlen & Hc) Hi Hb.
  destruct (body_inv_cases pow n h prec dx_store N i st st' false HI Hi Hb)
    as (xp & yp & last & _ & _ & _ & [(? & _)|[(_ & _ & _ & ->)|(_ & _ & _ & ->)]]).
  - discriminate.
  - exists (js ++ [i]). split; [rewrite length_app; cbn; lia|].
    destruct HI as [[] ? _ _ _ _]. apply copied_store with N; try assumption; lia.
  - exists js. split; [exact Hlen|]. now apply copied_skip.
Qed.

Lemma sampled_init (pow : float -> float -> float) (n h prec dx_store : float)
    (nstps : Z) (st0 : frame) :
  init pow n h nstps = Ok st0 -> sampled 1 st0.
Proof.
  intros H0.
  destruct (Z.lt_trichotomy nstps 0) as [Hn|[Hn|Hn]].
  - now rewrite (init_negative _ _ _ _ Hn) in H0.
  - now rewrite (init_zero _ _ _ _ Hn) in H0.
  - destruct (init_inv pow n h prec dx_store nstps) as (st0' & H0' & [[] Hp _ _ _ _]);
      [lia|].
    rewrite H0 in H0'. injection H0' as <-.
    exists [0]. split; [cbn; lia|]. split.
    + intros [|k] j [= <-]. split; [lia|]. now exists h, (center pow h n).
    + intros [|k1] [|k2] j1 j2 ?; cbn; intros; try lia; discriminate.
Qed.

(** Every sample of a returned sequence, but the terminal one that a
    [break] appends, is a point of the dense trajectory the loop went
    through: the samples are rows of the dense arrays, taken in order. *)
Theorem stored_from_dense (pow : float -> float -> float) (n h : float) (nstps : Z)
    (prec dx_store : float) (st : frame) (e : exit) :
  integrate_run pow n h nstps prec dx_store = Ok (st, e) ->
  exists js : list nat,
    length js = match e with
                | Break _ => length (stored st).1 - 1
                | Exhausted => length (stored st).1
                end /\
    (forall k j, js !! k = Some j ->
       j <= iterations e nstps /\
       exists xj yj,
         x st !! j = Some xj /\ y st !! j = Some yj /\
         (stored st).1 !! k = Some xj /\ (stored st).2 !! k = Some yj) /\
    (forall k1 k2 j1 j2,
       k1 < k2 -> js !! k1 = Some j1 -> js !! k2 = Some j2 -> j1 < j2).
Proof.
  intros H.
  assert (Hrun := run_rule pow n h prec dx_store nstps sampled
                    (sampled_step pow n h prec dx_store (Z.to_nat nstps))
                    (sampled_init pow n h prec dx_store nstps)).
  specialize (Hrun st e H).
  destruct e as [i|]; cbn [iterations].
  - destruct Hrun as (Hi & st_b & HI & (js & Hlen & Hc & Hs) & Hb & Hdone).
    destruct (body_inv_cases pow n h prec dx_store (Z.to_nat nstps) i st_b st true HI Hi Hb)
      as (xp & yp & last & _ & _ & _ & [(_ & _ & ->)|[(? & _)|(? & _)]]); try discriminate.
    destruct HI as [[Ly Lx Lxs Lys _ _ _ _] Hp _ _ _ _].
    exists js. unfold stored; cbn [fst snd y x x_store y_store str_ptr].
    rewrite length_take_le by (rewrite length_insert; lia).
    split; [lia|]. split; [|exact Hs].
    intros k j Hk. destruct (Hc k j Hk) as (Hj & xj & yj & H1 & H2 & H3 & H4).
    pose proof (lookup_lt_Some _ _ _ Hk).
    split; [lia|]. exists xj, yj.
    rewrite !lookup_take_lt by lia. now rewrite !list_lookup_insert_ne by lia.
  - destruct Hrun as ([[Ly Lx Lxs Lys _ _ _ _] Hp _ _ _ _] & js & Hlen & Hc & Hs).
    exists js. unfold stored; cbn [fst snd].
    rewrite length_take_le by lia. split; [exact Hlen|]. split; [|exact Hs].
    intros k j Hk. destruct (Hc k j Hk) as (Hj & xj & yj & H1 & H2 & H3 & H4).
    pose proof (lookup_lt_Some _ _ _ Hk).
    split; [lia|]. exists xj, yj. now rewrite !lookup_take_lt by lia.
Qed.

Lemma stored_from_dense_witness :
  exists st,
    integrate_run pow_ieee 1 0.001 1000 1.0e-6 0.1 = Ok (st, Break 373) /\
    length (stored st).1 = 27 /\
    exists js : list nat,
      length js = length (stored st).1 - 1 /\
      (forall k j, js !! k = Some j ->
         j <= 373 /\
         exists xj yj,
           x st !! j = Some xj /\ y st !! j = Some yj /\
           (stored st).1 !! k = Some xj /\ (stored st).2 !! k = Some yj) /\
      (forall k1 k2 j1 j2,
         k1 < k2 -> js !! k1 = Some j1 -> js !! k2 = Some j2 -> j1 < j2).
Proof.
  eexists. split; [vm_compute; reflexivity|]. split; [vm_compute; reflexivity|].
  apply (stored_from_dense pow_ieee 1 0.001 1000 1.0e-6 0.1 _ (Break 373)).
  vm_compute. reflexivity.
Defined.

(** *** A NaN step size *)

Lemma step_size_poisoned (pow : float -> float -> float) (n : float) :
  step_size pow nan (nan, nan) n = nan.
Proof.
  unfold step_size, scale_length, Vec.abs, Vec.div; cbn [fst snd].
  now rewrite !div_nan_l.
Qed.

(** An iteration that chooses a NaN step size writes an all-NaN dense
    point, does not reach [break] and stores nothing. *)
Lemma body_nan (pow : float -> float -> float) (n h prec dx_store : float)
    (N i : nat) (st st' : frame) (b : bool) (xp : float) (yp : vec) :
  Inv pow n h prec dx_store N i st -> 1 <= i < N ->
  x st !! (i - 1) = Some xp -> y st !! (i - 1) = Some yp ->
  step_size pow xp yp n = nan ->
  body pow n prec dx_store i st = Ok (st', b) ->
  b = false /\ poisoned (x_store st) (y_store st) (str_ptr st) (S i) st'.
Proof.
  intros HI Hi Hx Hy Hnan Hb.
  destruct (body_inv_cases pow n h prec dx_store N i st st' b HI Hi Hb)
    as (xp' & yp' & last & Hx' & Hy' & _ & Hc).
  rewrite Hx in Hx'. injection Hx' as <-. rewrite Hy in Hy'. injection Hy' as <-.
  cbv zeta in Hc. rewrite Hnan, ltb_nan_l, add_nan_r, ltb_nan_r, rk4_nan_step in Hc.
  destruct Hc as [(_ & ? & _)|[(_ & _ & ? & _)|(-> & _ & _ & ->)]]; try discriminate.
  split; [reflexivity|]. destruct HI as [[] _ _ _ _ _].
  unfold poisoned; cbn [y x x_store y_store str_ptr].
  replace (S i - 1) with i by lia.
  split; [apply list_lookup_insert_eq; lia|].
  split; [apply list_lookup_insert_eq; unfold vec in *; lia|]. now repeat split.
Qed.

Lemma poisoned_step (pow : float -> float -> float) (n h prec dx_store : float)
    (N : nat) (xs : list float) (ys : list vec) (p i : nat) (st st' : frame) :
  Inv pow n h prec dx_store N i st -> poisoned xs ys p i st -> 1 <= i < N ->
  body pow n prec dx_store i st = Ok (st', false) -> poisoned xs ys p (S i) st'.
Proof.
  intros HI (Hx & Hy & <- & <- & <-) Hi Hb.
  now destruct (body_nan pow n h prec dx_store N i st st' false nan (nan, nan)
                  HI Hi Hx Hy (step_size_poisoned pow n) Hb).
Qed.

(** Once an iteration has chosen a NaN step size, the rest of the loop
    stores nothing and uses up its iterations. *)
Lemma loop_nan (pow : float -> float -> float) (n h prec dx_store : float)
    (N i : nat) (st : frame) (xp : float) (yp : vec) :
  Inv pow n h prec dx_store N i st -> 1 <= i < N ->
  x st !! (i - 1) = Some xp -> y st !! (i - 1) = Some yp ->
  step_size pow xp yp n = nan ->
  exists st',
    loop pow n prec dx_store (seq i (N - i)) st = Ok (st', Exhausted) /\
    stored st' = stored st.
Proof.
  intros HI Hi Hx Hy Hnan.
  destruct (body_inv pow n h prec dx_store N i st HI Hi) as (st1 & b & Hb & Hst1).
  destruct (body_nan pow n h prec dx_store N i st st1 b xp yp HI Hi Hx Hy Hnan Hb)
    as (-> & HP).
  destruct (loop_rule pow n h prec dx_store N
              (poisoned (x_store st) (y_store st) (str_ptr st))
              (poisoned_step pow n h prec dx_store N _ _ _)
              (N - S i) (S i) st1 Hst1 HP)
    as (st2 & e & He & Hst2); [lia..|].
  replace (N - i) with (S (N - S i)) by lia.
  cbn [seq loop]. rewrite Hb, bind_Ok. exists st2. destruct e as [j|].
  - exfalso. destruct Hst2 as (Hj & st_b & HIb & (Hxb & Hyb & _) & Hbb & _).
    now destruct (body_nan pow n h prec dx_store N j st_b st2 true nan (nan, nan)
                    HIb ltac:(lia) Hxb Hyb (step_size_poisoned pow n) Hbb).
  - split; [exact He|]. destruct Hst2 as (_ & _ & _ & Hxs & Hys & Hp).
    unfold stored. now rewrite Hxs, Hys, Hp.
Qed.

(** A NaN step size is never noticed: when an iteration that is reached
    chooses one, the call still returns, by using up its iterations, and it
    returns exactly the samples stored before that iteration. *)
Theorem nan_step_unnoticed (pow : float -> float -> float) (n h : float) (nstps : Z)
    (prec dx_store : float) (i : nat) (st_b : frame) (xp : float) (yp : vec) :
  entry pow n h nstps prec dx_store i = Ok (st_b, Exhausted) ->
  1 <= i < Z.to_nat nstps ->
  x st_b !! (i - 1) = Some xp -> y st_b !! (i - 1) = Some yp ->
  step_size pow xp yp n = nan ->
  (exists st, integrate_run pow n h nstps prec dx_store = Ok (st, Exhausted)) /\
  integrate pow n h nstps prec dx_store = Ok (stored st_b).
Proof.
  intros He Hi Hx Hy Hnan.
  pose proof (entry_inv pow n h prec dx_store nstps i st_b He ltac:(lia)) as HI.
  destruct (loop_nan pow n h prec dx_store (Z.to_nat nstps) i st_b xp yp HI Hi Hx Hy Hnan)
    as (st & Hl & Hs).
  pose proof (run_from_entry pow n h prec dx_store nstps i st_b He ltac:(lia)) as Hr.
  rewrite Hl in Hr. split; [now exists st|].
  unfold integrate. now rewrite Hr, bind_Ok, Hs.
Qed.

(** Started at the origin, where [LE] divides by zero, the first step is
    infinite and the second step size is NaN. *)
Lemma nan_step_unnoticed_witness :
  exists st_b,
    entry pow_ieee 0 0 6 1.0e-6 0.1 2 = Ok (st_b, Exhausted) /\
    stored st_b = ([0; infinity]%float, [(1, -0)%float; (nan, nan)]) /\
    (exists st, integrate_run pow_ieee 0 0 6 1.0e-6 0.1 = Ok (st, Exhausted)) /\
    integrate pow_ieee 0 0 6 1.0e-6 0.1 = Ok (stored st_b).
Proof.
  eexists. split; [vm_compute; reflexivity|]. split; [vm_compute; reflexivity|].
  apply (nan_step_unnoticed pow_ieee 0 0 6 1.0e-6 0.1 2 _ infinity (nan, nan)).
  - vm_compute. reflexivity.
  - vm_compute. lia.
  - vm_compute. reflexivity.
  - vm_compute. reflexivity.
  - vm_compute. reflexivity.
Defined.

(** ** The last cell *)

Lemma where_from_spec (m : list bool) : forall i j : nat,
  j ∈ where_from i m <-> exists k, j = i + k /\ m !! k = Some true.
Proof.
  induction m as [|b m IH]; intros i j; cbn [where_from].
  - split; [intros H; inversion H | intros (k & _ & H); discriminate].
  - assert (Hrec : j ∈ where_from (S i) m <->
                   exists k, j = i + S k /\ (b :: m) !! S k = Some true).
    { rewrite IH. split; intros (k & -> & Hk); exists k; (split; [lia|exact Hk]). }
    destruct b.
    + rewrite elem_of_cons, Hrec. split.
      * intros [->|(k & -> & Hk)]; [exists 0; split; [lia|reflexivity] | eauto].
      * intros ([|k] & -> & Hk); [left; lia | right; eauto].
    + rewrite Hrec. split.
      * intros (k & -> & Hk). eauto.
      * intros ([|k] & -> & Hk); [discriminate | eauto].
Qed.

Lemma foldl_max (t : list nat) : forall a : nat,
  let M := foldl (fun m v => if m <? v then v else m) a t in
  (M = a \/ M ∈ t) /\ a <= M /\ Forall (fun v => v <= M) t.
Proof.
  induction t as [|v t IH]; intros a; cbn [foldl].
  - split; [now left|]. split; [lia|constructor].
  - destruct (IH (if a <? v then v else a)) as (Hin & Hle & Hall).
    destruct (Nat.ltb_spec a v).
    + split; [right; destruct Hin as [->|Hin]; [left | now right]|].
      split; [lia|]. constructor; assumption.
    + split; [destruct Hin as [->|Hin]; [now left | right; now right]|].
      split; [lia|]. constructor; [lia | assumption].
Qed.

Lemma py_max_Ok (l : list nat) (M : nat) :
  py_max l = Ok M -> M ∈ l /\ Forall (fun v => v <= M) l.
Proof.
  destruct l as [|a t]; [discriminate|]. intros [= <-].
  destruct (foldl_max t a) as (Hin & Hle & Hall). split.
  - destruct Hin as [->|Hin]; [left | now right].
  - now constructor.
Qed.

Lemma py_max_cons (a : nat) (t : list nat) : exists M, py_max (a :: t) = Ok M.
Proof. now eexists. Qed.

Lemma label_Ok (x : list float) (y : list vec) (xl yl : float) :
  label x y = Ok (xl, yl) ->
  exists (m : nat) (yrow : vec),
    x !! m = Some xl /\ y !! m = Some yrow /\ yl = yrow.1 /\
    (xl <? xright)%float = true /\
    forall k v, m < k -> x !! k = Some v -> (v <? xright)%float = false.
Proof.
  unfold label. cbv zeta.
  destruct (py_max _) as [m|] eqn:Hm; [|discriminate]. rewrite bind_Ok.
  unfold getitem. destruct (x !! m) as [xv|] eqn:Hx; [|discriminate]. rewrite !bind_Ok.
  destruct (y !! m) as [yv|] eqn:Hy; [|discriminate]. rewrite bind_Ok.
  intros [= <- <-]. exists m, yv.
  destruct (py_max_Ok _ _ Hm) as (Hin & Hall).
  apply where_from_spec in Hin as (k & -> & Hk). cbn in Hk, Hx, Hy.
  rewrite list_lookup_fmap, Hx in Hk. injection Hk as Hk.
  repeat split; try assumption.
  intros k' v Hlt Hv. destruct (v <? xright)%float eqn:Hb; [exfalso|reflexivity].
  assert (Hin : k' ∈ np_where ((fun v => (v <? xright)%float) <$> x)).
  { apply where_from_spec. exists k'. split; [reflexivity|].
    now rewrite list_lookup_fmap, Hv; cbn; rewrite Hb. }
  rewrite Forall_forall in Hall. specialize (Hall k' Hin). cbn in Hall. lia.
Qed.

(** When [label] succeeds, the label sits on the last sample that is
    below xright: that sample is below xright and no later one is. *)
Theorem label_last_below (x : list float) (y : list vec) (xl yl : float) :
  label x y = Ok (xl, yl) ->
  exists (m : nat) (yrow : vec),
    x !! m = Some xl /\ y !! m = Some yrow /\ yl = yrow.1 /\
    (xl <? xright)%float = true /\
    forall k v, m < k -> x !! k = Some v -> (v <? xright)%float = false.
Proof. apply label_Ok. Qed.

Lemma label_last_below_witness :
  exists (m : nat) (yrow : vec),
    [1; 6; 2; 7]%float !! m = Some 2%float /\
    [(1, 0); (0.5, 0); (0.25, 0); (0, 0)]%float !! m = Some yrow /\
    0.25%float = yrow.1 /\
    (2 <? xright)%float = true /\
    forall k v, m < k -> [1; 6; 2; 7]%float !! k = Some v -> (v <? xright)%float = false.
Proof.
  apply (label_last_below [1; 6; 2; 7]%float
           [(1, 0); (0.5, 0); (0.25, 0); (0, 0)]%float 2 0.25).
  reflexivity.
Defined.

(** [label] raises a ValueError exactly when no sample is below xright:
    [max] is then given an empty sequence. *)
Theorem label_none_below (x : list float) (y : list vec) :
  label x y = Raise ValueError <->
  Forall (fun v => (v <? xright)%float = false) x.
Proof.
  unfold label. cbv zeta. split.
  - intros H. apply Forall_forall. intros v Hv.
    destruct (v <? xright)%float eqn:Hb; [exfalso|reflexivity].
    apply list_elem_of_lookup in Hv as [k Hk].
    assert (Hin : k ∈ np_where ((fun v => (v <? xright)%float) <$> x)).
    { apply where_from_spec. exists k. split; [reflexivity|].
      now rewrite list_lookup_fmap, Hk; cbn; rewrite Hb. }
    destruct (np_where _) as [|a t] eqn:Hw; [inversion Hin|].
    destruct (py_max_cons a t) as [M HM]. rewrite HM, !bind_Ok in H.
    unfold getitem in H. destruct (x !! M); [|discriminate]. rewrite !bind_Ok in H.
    destruct (y !! M); discriminate.
  - intros Hall.
    destruct (np_where _) as [|a t] eqn:Hw; [reflexivity|exfalso].
    assert (Hin : a ∈ np_where ((fun v => (v <? xright)%float) <$> x))
      by (rewrite Hw; left).
    apply where_from_spec in Hin as (k & _ & Hk).
    rewrite list_lookup_fmap in Hk. destruct (x !! k) as [v|] eqn:Hv; [|discriminate].
    injection Hk as Hk. rewrite Forall_forall in Hall.
    rewrite (Hall v) in Hk; [discriminate|]. apply list_elem_of_lookup. eauto.
Qed.

Lemma label_none_below_witness :
  label [6; 7.5]%float [(0.5, 0); (0.25, 0)]%float = Raise ValueError.
Proof.
  apply (proj2 (label_none_below [6; 7.5]%float [(0.5, 0); (0.25, 0)]%float)).
  repeat constructor.
Defined.

Lemma last_take_S {A : Type} (l : list A) (p : nat) (v : A) :
  l !! p = Some v -> last (take (S p) l) = Some v.
Proof. intros H. rewrite (take_S_r _ _ _ H). apply last_snoc. Qed.

Lemma label_head (x : list float) (y : list vec) (v : float) :
  x !! 0 = Some v -> (v <? xright)%float = true -> length x = length y ->
  exists xl yl, label x y = Ok (xl, yl).
Proof.
  intros H0 Hv Hlen. unfold label. cbv zeta.
  assert (Hin : 0 ∈ np_where ((fun v => (v <? xright)%float) <$> x)).
  { apply where_from_spec. exists 0. split; [reflexivity|].
    now rewrite list_lookup_fmap, H0; cbn; rewrite Hv. }
  destruct (np_where _) as [|a t] eqn:Hw; [inversion Hin|].
  destruct (py_max_cons a t) as [M HM]. rewrite HM, bind_Ok.
  destruct (py_max_Ok _ _ HM) as (HMin & _). rewrite <- Hw in HMin.
  apply where_from_spec in HMin as (k & -> & Hk). cbn in *.
  rewrite list_lookup_fmap in Hk. destruct (x !! k) as [xv|] eqn:Hx; [|discriminate].
  destruct (lookup_lt_is_Some_2 y k) as [yv Hy];
    [rewrite <- Hlen; now apply lookup_lt_Some in Hx|].
  rewrite (getitem_Some _ _ _ Hx), !bind_Ok, (getitem_Some _ _ _ Hy), bind_Ok.
  now eexists _, _.
Qed.

(** What a pass of the last cell gets from a run of the default call. *)
Lemma pass_of_run (pow : float -> float -> float) (n : float) (st : frame) (e : exit)
    (xr : float) (yr : vec) :
  integrate_run pow n 0.001 1000 1.0e-6 0.1 = Ok (st, e) ->
  x_store st !! str_ptr st = Some xr -> y_store st !! str_ptr st = Some yr ->
  exists xl yl,
    pass pow n = Ok (Curve n xl yl xr yr.2) /\ (xl <? xright)%float = true.
Proof.
  intros H Hxr Hyr.
  destruct (run_facts _ _ _ _ _ _ _ _ H) as ([Ly Lx Lxs Lys _ _ XS0 YS0] & Hp & _).
  unfold pass, integrate_default, integrate. rewrite H, !bind_Ok.
  unfold stored.
  destruct (label_head (take (S (str_ptr st)) (x_store st))
              (take (S (str_ptr st)) (y_store st)) 0.001)
    as (xl & yl & Hl).
  { rewrite lookup_take_lt by lia. exact XS0. }
  { reflexivity. }
  { rewrite !length_take_le by lia. reflexivity. }
  rewrite Hl, bind_Ok. unfold getitem_last.
  rewrite (last_take_S _ _ _ Hxr), bind_Ok, (last_take_S _ _ _ Hyr), bind_Ok.
  exists xl, yl. split; [reflexivity|].
  now destruct (label_Ok _ _ _ _ Hl) as (m & yrow & _ & _ & _ & Hb & _).
Qed.

Lemma pass_Ok (pow : float -> float -> float) (n : float) :
  exists c, pass pow n = Ok c /\ index c = n /\ (xloc c <? xright)%float = true.
Proof.
  destruct (run_cases pow n 0.001 1.0e-6 0.1 1000) as (st & e & H & _); [lia|].
  destruct (run_facts _ _ _ _ _ _ _ _ H) as ([Ly Lx Lxs Lys _ _ _ _] & Hp & _).
  destruct (lookup_lt_is_Some_2 (x_store st) (str_ptr st)) as [xr Hxr]; [lia|].
  destruct (lookup_lt_is_Some_2 (y_store st) (str_ptr st)) as [yr Hyr];
    [unfold vec in *; lia|].
  destruct (pass_of_run pow n st e xr yr H Hxr Hyr) as (xl & yl & Hpass & Hb).
  eexists. split; [exact Hpass|]. now split.
Qed.

(** In each of the six passes of the last cell, whatever [**] computes,
    the default call returns, the label lookup finds a sample below
    xright, because the first sample is 0.001, and the arrays indexed with
    -1 are not empty: the values handed to [plt.annotate] and to [print]
    exist, for the six indices in order.  The calls to pyplot and the
    formatting of the printed line are outside this statement. *)
Theorem table_values (pow : float -> float -> float) :
  exists rows,
    table pow = Ok rows /\
    index <$> rows = [0; 1; 1.5; 2; 3; 4]%float /\
    Forall (fun c => (xloc c <? xright)%float = true) rows.
Proof.
  destruct (pass_Ok pow 0) as (c0 & H0 & I0 & B0).
  destruct (pass_Ok pow 1) as (c1 & H1 & I1 & B1).
  destruct (pass_Ok pow 1.5) as (c2 & H2 & I2 & B2).
  destruct (pass_Ok pow 2) as (c3 & H3 & I3 & B3).
  destruct (pass_Ok pow 3) as (c4 & H4 & I4 & B4).
  destruct (pass_Ok pow 4) as (c5 & H5 & I5 & B5).
  exists [c0; c1; c2; c3; c4; c5]. split; [|split].
  - unfold table. cbn [mapM]. now rewrite H0, H1, H2, H3, H4, H5.
  - cbn. now rewrite I0, I1, I2, I3, I4, I5.
  - repeat constructor; assumption.
Qed.

(** The line of the table for an index: after a [break] r1 is the
    extrapolated root, the new xi plus H_P[0], and dy the slope of the new
    state; when the loop ran out, a line is printed all the same, and r1
    and dy are those of a dense point, the last one stored. *)
Theorem table_line (pow : float -> float -> float) (n : float) :
  exists st e c,
    integrate_run pow n 0.001 1000 1.0e-6 0.1 = Ok (st, e) /\
    pass pow n = Ok c /\
    match e with
    | Break i =>
        exists xp yp,
          x st !! (i - 1) = Some xp /\ y st !! (i - 1) = Some yp /\
          r1 c = (xp + step_size pow xp yp n + (scale_length pow xp yp n).1)%float /\
          dy c = (rk4 xp (step_size pow xp yp n) yp (LE pow) n).2
    | Exhausted =>
        exists j yj,
          j <= 999 /\ x st !! j = Some (r1 c) /\ y st !! j = Some yj /\ dy c = yj.2
    end.
Proof.
  destruct (run_cases pow n 0.001 1.0e-6 0.1 1000) as (st & e & H & _); [lia|].
  exists st, e.
  pose proof (run_rule pow n 0.001 1.0e-6 0.1 1000 sampled
                (sampled_step pow n 0.001 1.0e-6 0.1 (Z.to_nat 1000))
                (sampled_init pow n 0.001 1.0e-6 0.1 1000) st e H) as Hrun.
  destruct e as [i|].
  - destruct Hrun as (Hi & st_b & HI & _ & Hb & _).
    destruct (body_inv_cases pow n 0.001 1.0e-6 0.1 (Z.to_nat 1000) i st_b st true HI Hi Hb)
      as (xp & yp & last & Hx & Hy & _ & [(_ & _ & Hst)|[(? & _)|(? & _)]]);
      try discriminate.
    destruct HI as [[Ly Lx Lxs Lys _ _ _ _] Hp _ _ _ _].
    destruct (pass_of_run pow n st (Break i)
                (xp + step_size pow xp yp n + (scale_length pow xp yp n).1)%float
                (rk4 xp (step_size pow xp yp n) yp (LE pow) n) H)
      as (xl & yl & Hpass & _).
    { rewrite Hst; cbn [x_store str_ptr]. apply list_lookup_insert_eq. lia. }
    { rewrite Hst; cbn [y_store str_ptr]. apply list_lookup_insert_eq.
      unfold vec in *. lia. }
    eexists. split; [exact H|]. split; [exact Hpass|].
    exists xp, yp. rewrite Hst; cbn [x y r1 dy].
    rewrite !list_lookup_insert_ne by lia. now repeat split.
  - destruct Hrun as ([[Ly Lx Lxs Lys _ _ _ _] Hp _ _ _ _] & js & Hlen & Hc & _).
    destruct (lookup_lt_is_Some_2 js (str_ptr st)) as [j Hj]; [lia|].
    destruct (Hc _ _ Hj) as (Hlt & xj & yj & H1 & H2 & H3 & H4).
    destruct (pass_of_run pow n st Exhausted xj yj H H3 H4) as (xl & yl & Hpass & _).
    eexists. split; [exact H|]. split; [exact Hpass|].
    exists j, yj. cbn [r1 dy]. repeat split; try assumption. lia.
Qed.

(** ** The mirror symmetry of [LE] *)

Lemma mul_opp_r (a b : float) : (a * - b)%float = (- (a * b))%float.
Proof.
  apply Prim2SF_inj. rewrite opp_spec, !mul_spec, opp_spec.
  unfold SF64mul, SFmul.
  destruct (Prim2SF a) as [sa|sa| |sa ma ea], (Prim2SF b) as [sb|sb| |sb mb eb];
    try reflexivity; try (destruct sa, sb; reflexivity).
  cbn [SFopp]. rewrite <- (round_opp (xorb sa sb)). now destruct sa, sb.
Qed.

Lemma div_opp_opp (a b : float) : (- a / - b)%float = (a / b)%float.
Proof.
  apply Prim2SF_inj. rewrite !div_spec, !opp_spec.
  unfold SF64div, SFdiv.
  destruct (Prim2SF a) as [sa|sa| |sa ma ea], (Prim2SF b) as [sb|sb| |sb mb eb];
    try reflexivity; destruct sa, sb; reflexivity.
Qed.

(** The right-hand side is mirror symmetric: at -xi and the state
    (y0, -y1) its first component is negated and its second is the same
    float64 value, all NaNs counting as one; the sign of a NaN is not
    compared. *)
Theorem LE_mirror (pow : float -> float -> float) (xi y0 y1 n : float) :
  LE pow (- xi) (y0, (- y1)%float) n =
    ((- (LE pow xi (y0, y1) n).1)%float, (LE pow xi (y0, y1) n).2).
Proof.
  unfold LE; cbn [fst snd]. now rewrite mul_opp_r, div_opp_opp.
Qed.

(** ** The storage spacing does not steer the integration *)

Section Spacing.

Variable pow : float -> float -> float.
Variables (n h0 prec dx1 dx2 : float) (N : nat).

Lemma loop_same_dense (k : nat) : forall (i : nat) (st1 st2 : frame),
  Inv pow n h0 prec dx1 N i st1 -> Inv pow n h0 prec dx2 N i st2 ->
  x st1 = x st2 -> y st1 = y st2 -> 1 <= i -> i + k <= N ->
  exists st1' st2' e,
    loop pow n prec dx1 (seq i k) st1 = Ok (st1', e) /\
    loop pow n prec dx2 (seq i k) st2 = Ok (st2', e) /\
    x st1' = x st2' /\ y st1' = y st2' /\
    match e with
    | Break _ =>
        exists xt yt,
          x_store st1' !! str_ptr st1' = Some xt /\
          x_store st2' !! str_ptr st2' = Some xt /\
          y_store st1' !! str_ptr st1' = Some yt /\
          y_store st2' !! str_ptr st2' = Some yt
    | Exhausted => True
    end.
Proof.
  induction k as [|k IH]; intros i st1 st2 HI1 HI2 Ex Ey Hi Hk.
  - exists st1, st2, Exhausted. now repeat split.
  - destruct (body_inv pow n h0 prec dx1 N i st1 HI1) as (s1 & b1 & Hb1 & Hs1); [lia|].
    destruct (body_inv pow n h0 prec dx2 N i st2 HI2) as (s2 & b2 & Hb2 & Hs2); [lia|].
    destruct (body_inv_cases pow n h0 prec dx1 N i st1 s1 b1 HI1 ltac:(lia) Hb1)
      as (xp & yp & l1 & Hx1 & Hy1 & _ & C1).
    destruct (body_inv_cases pow n h0 prec dx2 N i st2 s2 b2 HI2 ltac:(lia) Hb2)
      as (xp' & yp' & l2 & Hx2 & Hy2 & _ & C2).
    rewrite Ex, Hx2 in Hx1. injection Hx1 as ->.
    rewrite Ey, Hy2 in Hy1. injection Hy1 as ->.
    cbv zeta in C1, C2. cbn [seq loop]. rewrite Hb1, Hb2, !bind_Ok.
    destruct HI1 as [[Ly1 Lx1 Lxs1 Lys1 _ _ _ _] Hp1 _ _ _ _].
    destruct HI2 as [[Ly2 Lx2 Lxs2 Lys2 _ _ _ _] Hp2 _ _ _ _].
    destruct (step_size pow xp yp n <? prec)%float eqn:Hfast.
    + destruct C1 as [(-> & _ & ->)|[(_ & ? & _)|(_ & ? & _)]]; try discriminate.
      destruct C2 as [(-> & _ & ->)|[(_ & ? & _)|(_ & ? & _)]]; try discriminate.
      eexists _, _, (Break i). split; [reflexivity|]. split; [reflexivity|].
      cbn [x y x_store y_store str_ptr]. rewrite Ex, Ey.
      split; [reflexivity|]. split; [reflexivity|].
      eexists _, _. unfold vec in *.
      repeat split; apply list_lookup_insert_eq; lia.
    + assert (b1 = false /\ x s1 = <[i := (xp + step_size pow xp yp n)%float]> (x st1) /\
              y s1 = <[i := rk4 xp (step_size pow xp yp n) yp (LE pow) n]> (y st1))
        as (-> & Xs1 & Ys1).
      { destruct C1 as [(_ & ? & _)|[(-> & _ & _ & ->)|(-> & _ & _ & ->)]];
          [discriminate|now repeat split..]. }
      assert (b2 = false /\ x s2 = <[i := (xp + step_size pow xp yp n)%float]> (x st2) /\
              y s2 = <[i := rk4 xp (step_size pow xp yp n) yp (LE pow) n]> (y st2))
        as (-> & Xs2 & Ys2).
      { destruct C2 as [(_ & ? & _)|[(-> & _ & _ & ->)|(-> & _ & _ & ->)]];
          [discriminate|now repeat split..]. }
      apply (IH (S i) s1 s2 Hs1 Hs2); [congruence|congruence|lia|lia].
Qed.

End Spacing.

(** Two calls that differ only in dx_store integrate alike: they leave the
    loop the same way and after the same dense trajectory, and when they
    leave it by [break] they end on the same terminal sample, so the root
    found does not depend on the spacing of the stored samples. *)
Theorem spacing_does_not_steer (pow : float -> float -> float) (n h : float)
    (nstps : Z) (prec dx1 dx2 : float) (st1 st2 : frame) (e1 e2 : exit) :
  integrate_run pow n h nstps prec dx1 = Ok (st1, e1) ->
  integrate_run pow n h nstps prec dx2 = Ok (st2, e2) ->
  e1 = e2 /\ x st1 = x st2 /\ y st1 = y st2 /\
  match e1 with
  | Break _ =>
      last (stored st1).1 = last (stored st2).1 /\
      last (stored st1).2 = last (stored st2).2
  | Exhausted => True
  end.
Proof.
  intros H1 H2. pose proof (run_Ok_nstps _ _ _ _ _ _ _ _ H1) as Hn.
  destruct (init_inv pow n h prec dx1 nstps Hn) as (s1 & Hi1 & HI1).
  destruct (init_inv pow n h prec dx2 nstps Hn) as (s2 & Hi2 & HI2).
  rewrite Hi1 in Hi2. injection Hi2 as <-.
  destruct (loop_same_dense pow n h prec dx1 dx2 (Z.to_nat nstps)
              (Z.to_nat nstps - 1) 1 s1 s1 HI1 HI2 eq_refl eq_refl)
    as (t1 & t2 & e & L1 & L2 & Ex & Ey & He); [lia..|].
  unfold integrate_run, xrange1 in H1, H2.
  rewrite Hi1, bind_Ok in H1, H2. rewrite L1 in H1. rewrite L2 in H2.
  injection H1 as <- <-. injection H2 as <- <-.
  split; [reflexivity|]. split; [exact Ex|]. split; [exact Ey|].
  destruct e as [i|]; [|exact I].
  destruct He as (xt & yt & A1 & A2 & B1 & B2). unfold stored; cbn [fst snd].
  now rewrite (last_take_S _ _ _ A1), (last_take_S _ _ _ A2),
    (last_take_S _ _ _ B1), (last_take_S _ _ _ B2).
Qed.

Lemma spacing_does_not_steer_witness :
  exists st1 st2 e1 e2,
    integrate_run pow_ieee 1 0.001 1000 1.0e-6 0.1 = Ok (st1, e1) /\
    integrate_run pow_ieee 1 0.001 1000 1.0e-6 0.5 = Ok (st2, e2) /\
    e1 = e2 /\ x st1 = x st2 /\ y st1 = y st2 /\
    match e1 with
    | Break _ =>
        last (stored st1).1 = last (stored st2).1 /\
        last (stored st1).2 = last (stored st2).2
    | Exhausted => True
    end.
Proof.
  eexists _, _, _, _.
  split; [vm_compute; reflexivity|]. split; [vm_compute; reflexivity|].
  apply (spacing_does_not_steer pow_ieee 1 0.001 1000 1.0e-6 0.1 0.5);
    vm_compute; reflexivity.
Defined.
